(** * PathoMetrics dashboard: range classification, patient lookup,
    summary statistics and the regression trendline of [app.py].

    Numbers are modelled as exact rationals ([Q]): every comparison the
    program makes between finite numbers has the same result on [Q], and the
    arithmetic of the regression is the arithmetic of the closed forms it
    evaluates, together with the one decision of the fit that depends on
    magnitudes: the pseudo-inverse drops a singular value of the design that
    is not above 1e-15 times the largest.  Missing cells (NaN inside the table) are not modelled; NaN
    only appears as the result of a statistic over no data. *)

From Stdlib Require Import QArith Qminmax Qfield Lqa.
From stdpp Require Import gmap strings list sorting.

Open Scope Q_scope.
Open Scope string_scope.

(** The order of the rationals is decidable. *)
Global Instance Qle_decision : RelDecision Qle := λ x y,
  match Qlt_le_dec y x with
  | left H => right (Qlt_not_le y x H)
  | right H => left H
  end.

(** ** Exceptions and outcomes *)

(** A raised Python exception: the name of its class and its argument. *)
Record exn := Exn { exn_class : string; exn_arg : string }.

Definition KeyError (key : string) : exn := Exn "KeyError" key.
Definition ValueError (msg : string) : exn := Exn "ValueError" msg.
Definition TypeError (msg : string) : exn := Exn "TypeError" msg.

(** The part of the builtin class hierarchy the program can meet:
    [KeyError] and [IndexError] derive from [LookupError]. *)
Definition base_class (cls : string) : option string :=
  if String.eqb cls "KeyError" then Some "LookupError"
  else if String.eqb cls "IndexError" then Some "LookupError"
  else if String.eqb cls "LookupError" then Some "Exception"
  else if String.eqb cls "ValueError" then Some "Exception"
  else if String.eqb cls "TypeError" then Some "Exception"
  else None.

(** [isinstance e cls]: the class of [e] is [cls] or derives from it. *)
Definition isinstance (e : exn) (cls : string) : bool :=
  String.eqb (exn_class e) cls
  || match base_class (exn_class e) with
     | Some b =>
         String.eqb b cls
         || match base_class b with
            | Some b' => String.eqb b' cls
            | None => false
            end
     | None => false
     end.

Inductive outcome (A : Type) : Type :=
| Ok (a : A)
| Raise (e : exn).
Arguments Ok {A} a.
Arguments Raise {A} e.

Global Instance outcome_ret : MRet outcome := λ A a, Ok a.

Global Instance outcome_bind : MBind outcome := λ A B k o,
  match o with
  | Ok a => k a
  | Raise e => Raise e
  end.

(** [fails_with o cls]: the computation ends in an exception of class [cls]. *)
Definition fails_with {A} (o : outcome A) (cls : string) : Prop :=
  ∃ e, o = Raise e ∧ isinstance e cls = true.

(** ** Numbers of the configuration *)

(** A Python number literal: [12.0] is a float, [150] an int. *)
Inductive pynum :=
| PyInt (z : Z)
| PyFloat (q : Q).

Definition num_val (n : pynum) : Q :=
  match n with
  | PyInt z => inject_Z z
  | PyFloat q => q
  end.

(** ** Configuration: [numeric_columns] and [healthy_ranges] *)

Definition numeric_columns : list string :=
  [ "Hemoglobin (g/dL)"; "White Blood Cell Count (10^3/μL)";
    "Platelet Count (10^3/μL)"; "Cholesterol (mg/dL)" ].

(** The entries of the dictionary literal, in source order. *)
Definition healthy_ranges_items : list (string * (pynum * pynum)) :=
  [ ("Hemoglobin (g/dL)", (PyFloat 12.0, PyFloat 16.5));
    ("White Blood Cell Count (10^3/μL)", (PyFloat 4.5, PyFloat 11.0));
    ("Platelet Count (10^3/μL)", (PyInt 150, PyInt 450));
    ("Cholesterol (mg/dL)", (PyInt 0, PyInt 200)) ].

Definition healthy_ranges : gmap string (pynum * pynum) :=
  list_to_map healthy_ranges_items.

(** [healthy_ranges[parameter]]: a missing key raises [KeyError]. *)
Definition healthy_ranges_getitem (parameter : string) : outcome (pynum * pynum) :=
  match healthy_ranges !! parameter with
  | Some r => Ok r
  | None => Raise (KeyError parameter)
  end.

(** ** The dataset *)

(** One row of the table read from the spreadsheet. *)
Record row := Row {
  patient_id : string;
  age : Q;
  gender : string;
  hemoglobin : Q;
  white_blood_cell_count : Q;
  platelet_count : Q;
  cholesterol : Q
}.

(** The value of a cell: text or a number. *)
Inductive cell :=
| CStr (s : string)
| CNum (q : Q).

Definition df_columns : list string :=
  ([ "Patient ID"; "Age"; "Gender" ] ++ numeric_columns)%list.

(** [row[column]]: an unknown label raises [KeyError]. *)
Definition row_getitem (r : row) (column : string) : outcome cell :=
  if String.eqb column "Patient ID" then Ok (CStr (patient_id r))
  else if String.eqb column "Age" then Ok (CNum (age r))
  else if String.eqb column "Gender" then Ok (CStr (gender r))
  else if String.eqb column "Hemoglobin (g/dL)" then Ok (CNum (hemoglobin r))
  else if String.eqb column "White Blood Cell Count (10^3/μL)"
       then Ok (CNum (white_blood_cell_count r))
  else if String.eqb column "Platelet Count (10^3/μL)" then Ok (CNum (platelet_count r))
  else if String.eqb column "Cholesterol (mg/dL)" then Ok (CNum (cholesterol r))
  else Raise (KeyError column).

(** [df[column]]: the cells of a column, top to bottom; a name that is not
    a column raises [KeyError]. *)
Definition df_getitem (df : list row) (column : string) : outcome (list cell) :=
  if bool_decide (column ∈ df_columns)
  then mapM (λ r, row_getitem r column) df
  else Raise (KeyError column).

(** The cells of a numeric column as numbers; [None] when one is text. *)
Definition numbers (cells : list cell) : option (list Q) :=
  mapM (λ c, match c with
             | CNum q => Some q
             | CStr _ => None
             end) cells.

(** ** Range classifier *)

(** [is_within_healthy_range(value, parameter)]: the table is read first,
    then the chained comparison [min_range <= value <= max_range] is made;
    comparing a number with text is a [TypeError]. *)
Definition is_within_healthy_range (value : cell) (parameter : string) : outcome bool :=
  '(min_range, max_range) ← healthy_ranges_getitem parameter;
  match value with
  | CNum v => Ok (Qle_bool (num_val min_range) v && Qle_bool v (num_val max_range))
  | CStr _ => Raise (TypeError "'<=' not supported between instances of 'float' and 'str'")
  end.

(** ** Page elements *)

(** The result of a statistic: a number, the square root of a number, or
    NaN when there is too little data. *)
Inductive fval :=
| Num (q : Q)
| Sqrt (q : Q)
| NaN.

(** The pieces of an f-string: literal text and formatted values. *)
Inductive fpart :=
| Lit (s : string)
| Fmt (c : cell)
| FmtNum (n : pynum)
| FmtInt (n : nat)
| Fmt2f (v : fval).

(** [html.P(text, style=...)]. *)
Record html := P { p_text : list fpart; p_style : list (string * string) }.

(** What a callback hands back: one element or a list of them. *)
Inductive children :=
| One (h : html)
| Many (hs : list html).

(** The "Desirable Ranges" captions of the layout. *)
Definition desirable_ranges : outcome (list html) :=
  h ← healthy_ranges_getitem "Hemoglobin (g/dL)";
  w ← healthy_ranges_getitem "White Blood Cell Count (10^3/μL)";
  p ← healthy_ranges_getitem "Platelet Count (10^3/μL)";
  c ← healthy_ranges_getitem "Cholesterol (mg/dL)";
  Ok [ P [Lit "Hemoglobin: "; FmtNum h.1; Lit " - "; FmtNum h.2; Lit " g/dL"] [];
       P [Lit "White Blood Cell Count: "; FmtNum w.1; Lit " - "; FmtNum w.2;
          Lit " x 10^3/μL"] [];
       P [Lit "Platelet Count: "; FmtNum p.1; Lit " - "; FmtNum p.2; Lit " x 10^3/μL"] [];
       P [Lit "Cholesterol: Less than "; FmtNum c.2; Lit " mg/dL"] [] ].

(** ** Patient lookup and the patient-details callback *)

(** [df[df['Patient ID'] == patient_id]]. *)
Definition patient_details (df : list row) (id : string) : list row :=
  filter (λ r, patient_id r = id) df.

(** One pass of the inner loop over [numeric_columns]. *)
Definition param_line (r : row) (param : string) : outcome html :=
  value ← row_getitem r param;
  within ← is_within_healthy_range value param;
  if (within : bool)
  then Ok (P [Lit param; Lit ": "; Fmt value] [])
  else Ok (P [Lit param; Lit ": "; Fmt value] [("color", "red")]).

(** One pass of the outer loop over the matching rows. *)
Definition row_details (r : row) : outcome (list html) :=
  params ← mapM (param_line r) numeric_columns;
  Ok ([ P [Lit "Patient ID: "; Fmt (CStr (patient_id r))] [];
        P [Lit "Age: "; Fmt (CNum (age r))] [];
        P [Lit "Gender: "; Fmt (CStr (gender r))] [] ] ++ params)%list.

(** [not n_clicks]: [None] and [0] are falsy. *)
Definition not_clicks (n_clicks : option Z) : bool :=
  match n_clicks with
  | None => true
  | Some n => Z.eqb n 0
  end.

(** [not patient_id]: [None] and the empty string are falsy. *)
Definition not_text (s : option string) : bool :=
  match s with
  | None => true
  | Some t => String.eqb t ""
  end.

Definition display_patient_details (df : list row)
    (n_clicks : option Z) (patient_id : option string) : outcome children :=
  if not_clicks n_clicks
  then Ok (One (P [Lit "Enter a Patient ID and click 'Search' to view details"] []))
  else if not_text patient_id
  then Ok (One (P [Lit "Enter a valid Patient ID to view details"] []))
  else
    let found := patient_details df (default "" patient_id) in
    match found with
    | [] => Ok (One (P [Lit "Patient ID not found"] []))
    | _ => details ← mapM row_details found; Ok (Many (concat details))
    end.

(** ** Summary statistics *)

Definition Qsum (l : list Q) : Q := foldr Qplus 0 l.

(** The number of values, as a rational. *)
Definition count (l : list Q) : Q := inject_Z (Z.of_nat (length l)).

Definition mean (l : list Q) : Q := Qsum l / count l.

(** Sample covariance and variance (one degree of freedom removed). *)
Definition cov (xs ys : list Q) : Q :=
  Qsum (zip_with (λ x y, (x - mean xs) * (y - mean ys)) xs ys) / (count xs - 1).

Definition var (xs : list Q) : Q := cov xs xs.

(** [Series.nunique()]: values are entered in a table of those already
    seen, in order of appearance, and counted. *)
Fixpoint unique_from (seen : gset string) (l : list string) : list string :=
  match l with
  | [] => []
  | x :: l' =>
      if decide (x ∈ seen) then unique_from seen l'
      else x :: unique_from ({[x]} ∪ seen) l'
  end.

Definition nunique (l : list string) : nat := length (unique_from ∅ l).

(** [Series.mean()]: NaN over no values. *)
Definition Series_mean (l : list Q) : fval :=
  match l with
  | [] => NaN
  | _ => Num (mean l)
  end.

Fixpoint insert_sorted (x : Q) (l : list Q) : list Q :=
  match l with
  | [] => [x]
  | y :: l' => if Qle_bool x y then x :: y :: l' else y :: insert_sorted x l'
  end.

Definition sort_values (l : list Q) : list Q := foldr insert_sorted [] l.

(** [Series.median()]: the middle of the sorted values, the mean of the two
    middle ones for an even count, NaN over no values. *)
Definition Series_median (l : list Q) : fval :=
  match l with
  | [] => NaN
  | _ =>
      let s := sort_values l in
      let n := length l in
      if Nat.even n
      then Num ((nth (n / 2 - 1) s 0 + nth (n / 2) s 0) / 2)
      else Num (nth (n / 2) s 0)
  end.

(** [Series.std()]: the square root of the sample variance, NaN below two
    values. *)
Definition Series_std (l : list Q) : fval :=
  if (length l <? 2)%nat then NaN else Sqrt (var l).

(** A statistic of a column: pandas refuses text with [TypeError]. *)
Definition column_stat (stat : list Q → fval) (df : list row) (column : string)
    : outcome fval :=
  cells ← df_getitem df column;
  match numbers cells with
  | Some l => Ok (stat l)
  | None => Raise (TypeError "could not convert string to numeric")
  end.

(** [df['Patient ID'].nunique()]. *)
Definition distinct_patient_count (df : list row) : nat :=
  nunique (patient_id <$> df).

(** [df['Age'].mean()]. *)
Definition mean_age (df : list row) : outcome fval :=
  column_stat Series_mean df "Age".

(** [df[parameter].median()]. *)
Definition median (df : list row) (parameter : string) : outcome fval :=
  column_stat Series_median df parameter.

(** [df[parameter].std()]. *)
Definition stddev (df : list row) (parameter : string) : outcome fval :=
  column_stat Series_std df parameter.

(** The "Data Summary" paragraphs of the layout. *)
Definition data_summary (df : list row) : outcome (list html) :=
  m ← mean_age df;
  h ← median df "Hemoglobin (g/dL)";
  p ← stddev df "Platelet Count (10^3/μL)";
  Ok [ P [Lit "Number of unique patients: "; FmtInt (distinct_patient_count df)] [];
       P [Lit "Mean Age: "; Fmt2f m] [];
       P [Lit "Median Hemoglobin: "; Fmt2f h] [];
       P [Lit "Standard Deviation Platelet Count: "; Fmt2f p] [] ].

(** ** Trend estimator *)

Definition dot (a b : list Q) : Q := Qsum (zip_with Qmult a b).

(** [Series.min()] and [Series.max()] of a column with first value [x0]. *)
Definition col_min (x0 : Q) (rest : list Q) : Q := foldr Qmin x0 rest.
Definition col_max (x0 : Q) (rest : list Q) : Q := foldr Qmax x0 rest.

(** The test [sm.add_constant] makes on a column: its range is zero and some
    value is not zero.  Over no values the range is undefined and the test
    answers no. *)
Definition safe_is_const (s : list Q) : bool :=
  match s with
  | [] => false
  | x0 :: rest =>
      Qeq_bool (col_max x0 rest - col_min x0 rest) 0
      && existsb (λ x, negb (Qeq_bool x 0)) s
  end.

(** The design matrix: the regressor column, preceded by a column of ones
    named [const] when [sm.add_constant] adds one. *)
Record exog := Exog {
  const_col : option (list Q);
  x_name : string;
  x_col : list Q
}.

(** [sm.add_constant(df[x_variable])]: a column that is already a non-zero
    constant is returned as it is (the default [has_constant='skip']). *)
Definition add_constant (name : string) (xs : list Q) : exog :=
  if safe_is_const xs then Exog None name xs
  else Exog (Some (replicate (length xs) 1)) name xs.

(** Least squares on one column: the pseudo-inverse of a column [c] applied
    to [y] (zero for the zero column, as [Qdiv] by zero is zero). *)
Definition pinv_solve1 (c y : list Q) : Q := dot c y / dot c c.

(** The pseudo-inverse that the fit applies drops a singular value of the
    design that is not above [rcond = 1e-15] times the largest one.  The
    singular values of a design of two columns are the square roots of the
    eigenvalues [l_min <= l_max] of its Gram matrix [G], so the smaller one
    is dropped when [l_min <= rcond^2 * l_max]; as [l_min + l_max = tr G]
    and [l_min * l_max = det G], this is
    [det G * (1 + rcond^2)^2 <= rcond^2 * (tr G)^2]. *)
Definition rcond2 : Q := 1 # 10 ^ 30.

Definition ill_conditioned (g11 g12 g22 : Q) : bool :=
  let det := g11 * g22 - g12 * g12 in
  let tr := g11 + g22 in
  Qle_bool (det * ((1 + rcond2) * (1 + rcond2))) (rcond2 * (tr * tr)).

(** The square root of a rational, taken on its reduced fraction and rounded
    down at 40 decimal places: the one step of the fit that is not rational
    arithmetic. *)
Definition Qsqrt (q : Q) : Q :=
  let r := Qred q in
  Z.sqrt (Qnum r * Zpos (Qden r) * 10 ^ 80) # (Qden r * 10 ^ 40).

(** The pseudo-inverse solution of the normal equations [G beta = r]:
    - where [det G = 0] the matrix has rank one, [l_max = tr G], and the
      solution of least norm is [G r / (tr G)^2];
    - where the smaller singular value is dropped, the solution is that of
      the part of [G] on its larger eigenvalue,
      [(G - l_min) r / ((l_max - l_min) * l_max)], with
      [l_max - l_min = sqrt ((tr G)^2 - 4 det G)];
    - otherwise [G] is inverted. *)
Definition pinv_gram (g11 g12 g22 r1 r2 : Q) : Q * Q :=
  let det := g11 * g22 - g12 * g12 in
  let tr := g11 + g22 in
  if Qeq_bool det 0
  then ((g11 * r1 + g12 * r2) / (tr * tr), (g12 * r1 + g22 * r2) / (tr * tr))
  else if ill_conditioned g11 g12 g22
  then
    let s := Qsqrt (tr * tr - 4 * det) in
    let l_max := (tr + s) / 2 in
    let l_min := (tr - s) / 2 in
    (((g11 - l_min) * r1 + g12 * r2) / (s * l_max),
     (g12 * r1 + (g22 - l_min) * r2) / (s * l_max))
  else ((g22 * r1 - g12 * r2) / det, (g11 * r2 - g12 * r1) / det).

(** Least squares on two columns [c1], [c2] through the Gram matrix of the
    design. *)
Definition pinv_solve2 (c1 c2 y : list Q) : Q * Q :=
  pinv_gram (dot c1 c1) (dot c1 c2) (dot c2 c2) (dot c1 y) (dot c2 y).

(** [sm.OLS(endog, exog).fit().params]: the coefficients by name.  The
    library rejects columns of different sizes and a design without rows
    with [ValueError]. *)
Definition OLS_fit (endog : list Q) (X : exog) : outcome (list (string * Q)) :=
  if negb (length endog =? length (x_col X))%nat
  then Raise (ValueError "endog and exog matrices are different sizes")
  else if (length (x_col X) =? 0)%nat
  then Raise (ValueError "zero-size array to reduction operation maximum which has no identity")
  else
    match const_col X with
    | None => Ok [(x_name X, pinv_solve1 (x_col X) endog)]
    | Some ones =>
        let '(a, b) := pinv_solve2 ones (x_col X) endog in
        Ok [("const", a); (x_name X, b)]
    end.

(** [params[name]]: a label that is not a coefficient raises [KeyError]. *)
Fixpoint params_getitem (params : list (string * Q)) (name : string) : outcome Q :=
  match params with
  | [] => Raise (KeyError name)
  | (k, v) :: rest => if String.eqb k name then Ok v else params_getitem rest name
  end.

(** [np.linspace(start, stop, num)]: [num] points from [start] in steps of
    [(stop - start) / (num - 1)]. *)
Definition linspace (start stop : Q) (num : nat) : list Q :=
  let step := (stop - start) / inject_Z (Z.of_nat (num - 1)) in
  map (λ i, inject_Z (Z.of_nat i) * step + start) (seq 0 num).

Record trace := Trace {
  trace_x : list Q;
  trace_y : list Q;
  trace_mode : string;
  trace_name : string
}.

(** The coefficients read on line 169: [params['const']], then
    [params[x_variable]]. *)
Definition fitted (x_variable : string) (xs ys : list Q) : outcome (Q * Q) :=
  params ← OLS_fit ys (add_constant x_variable xs);
  const ← params_getitem params "const";
  slope ← params_getitem params x_variable;
  Ok (const, slope).

(** Lines 163 to 177 of [update_scatter_plot] on the two selected columns:
    the fit, the sampled range and the trendline trace. *)
Definition trendline_trace (x_variable : string) (xs ys : list Q) : outcome trace :=
  params ← OLS_fit ys (add_constant x_variable xs);
  match xs with
  | [] =>
      (* not reached: the fit has raised on a table without rows *)
      Raise (ValueError "zero-size array to reduction operation maximum which has no identity")
  | x0 :: rest =>
      let x_range := linspace (col_min x0 rest) (col_max x0 rest) 100 in
      const ← params_getitem params "const";
      slope ← params_getitem params x_variable;
      Ok (Trace x_range (map (λ x, const + slope * x) x_range) "lines" "Trendline")
  end.

(** [df[column]] as the regression takes it: statsmodels refuses a column
    of text with [ValueError]. *)
Definition numeric_series (df : list row) (column : string) : outcome (list Q) :=
  cells ← df_getitem df column;
  match numbers cells with
  | Some l => Ok l
  | None => Raise (ValueError "Pandas data cast to numpy dtype of object")
  end.

Record figure := Figure {
  fig_title : string;
  fig_points : list (Q * Q);
  fig_traces : list trace
}.

(** [update_scatter_plot(x_variable, y_variable)]: [px.scatter] rejects a
    name that is not a column of the table. *)
Definition update_scatter_plot (df : list row)
    (x_variable y_variable : string) : outcome figure :=
  if bool_decide (x_variable ∈ df_columns) && bool_decide (y_variable ∈ df_columns)
  then
    xs ← numeric_series df x_variable;
    ys ← numeric_series df y_variable;
    trendline ← trendline_trace x_variable xs ys;
    Ok (Figure (String.append x_variable (String.append " vs. " y_variable))
               (zip xs ys) [trendline])
  else Raise (ValueError "Value is not the name of a column in 'data_frame'").

(** ** Bar chart *)

Record bar_chart := BarChart {
  bar_title : string;
  bar_points : list (cell * cell);
  bar_colors : list string
}.

(** [update_bar_chart(y_variable)]: one bar per row, at the row's age and of
    the height of its [y_variable] cell, in the colours of the palette
    [bar_color_palette]; [px.bar] rejects a name that is not a column of the
    table. *)
Definition update_bar_chart (bar_color_palette : list string) (df : list row)
    (y_variable : string) : outcome bar_chart :=
  if bool_decide (y_variable ∈ df_columns)
  then
    ages ← df_getitem df "Age";
    ys ← df_getitem df y_variable;
    Ok (BarChart (String.append y_variable " vs. Age") (zip ages ys)
                 bar_color_palette)
  else Raise (ValueError "Value is not the name of a column in 'data_frame'").

(** * Properties *)

(** ** Outcomes *)

Lemma fails_with_Raise {A} (e : exn) (cls : string) :
  fails_with (A:=A) (Raise e) cls ↔ isinstance e cls = true.
Proof.
  split.
  - intros (e' & He & Hc). by injection He as ->.
  - intros Hc. by exists e.
Qed.

Lemma fails_with_Ok {A} (a : A) (cls : string) : ¬ fails_with (Ok a) cls.
Proof. by intros (e & He & _). Qed.

Lemma mapM_outcome_ok {A B} (f : A → outcome B) (l : list A) :
  (∀ x, x ∈ l → ∃ y, f x = Ok y) → ∃ ys, mapM f l = Ok ys ∧ length ys = length l.
Proof.
  induction l as [|x l IH]; intros Hf.
  - by exists [].
  - destruct (Hf x) as [y Hy]; [left|].
    destruct IH as (ys & Hys & Hlen).
    { intros z Hz. apply Hf. by right. }
    exists (y :: ys). cbn. rewrite Hy. cbn. rewrite Hys. cbn. by rewrite Hlen.
Qed.

(** ** The healthy-range table *)

Lemma healthy_ranges_lookup (p : string) (r : pynum * pynum) :
  healthy_ranges !! p = Some r ↔ (p, r) ∈ healthy_ranges_items.
Proof.
  unfold healthy_ranges. split.
  - apply elem_of_list_to_map_2.
  - apply elem_of_list_to_map_1.
    apply (bool_decide_unpack _). by vm_compute.
Qed.

Lemma healthy_ranges_ordered (p : string) (lo hi : pynum) :
  healthy_ranges !! p = Some (lo, hi) → num_val lo <= num_val hi.
Proof.
  rewrite healthy_ranges_lookup. unfold healthy_ranges_items.
  rewrite !elem_of_cons, elem_of_nil.
  intros [H|[H|[H|[H|[]]]]]; injection H as -> -> ->; by vm_compute.
Qed.

Lemma is_within_healthy_range_eq (v : Q) (p : string) (lo hi : pynum) :
  healthy_ranges !! p = Some (lo, hi) →
  is_within_healthy_range (CNum v) p
  = Ok (Qle_bool (num_val lo) v && Qle_bool v (num_val hi)).
Proof.
  intros Hp. unfold is_within_healthy_range, healthy_ranges_getitem.
  by rewrite Hp.
Qed.

Lemma is_within_healthy_range_absent (c : cell) (p : string) :
  healthy_ranges !! p = None →
  is_within_healthy_range c p = Raise (KeyError p).
Proof.
  intros Hp. unfold is_within_healthy_range, healthy_ranges_getitem.
  by rewrite Hp.
Qed.

(** C1: for a parameter of the healthy-range table the classifier answers
    with a boolean, which is true exactly when min <= value <= max, both
    ends included; the two endpoints themselves are within range. *)
Theorem is_within_healthy_range_inclusive (v : Q) (p : string) (lo hi : pynum) :
  healthy_ranges !! p = Some (lo, hi) →
  (is_within_healthy_range (CNum v) p = Ok true
   ↔ num_val lo <= v ∧ v <= num_val hi)
  ∧ (is_within_healthy_range (CNum v) p = Ok false
     ↔ ¬ (num_val lo <= v ∧ v <= num_val hi))
  ∧ is_within_healthy_range (CNum (num_val lo)) p = Ok true
  ∧ is_within_healthy_range (CNum (num_val hi)) p = Ok true.
Proof.
  intros Hp. pose proof (healthy_ranges_ordered _ _ _ Hp) as Hord.
  rewrite !(is_within_healthy_range_eq _ p lo hi Hp).
  split; [|split; [|split]].
  - split.
    + intros [= H]. apply andb_true_iff in H as [H1 H2].
      by rewrite <- !Qle_bool_iff.
    + intros [H1 H2]. f_equal. apply andb_true_iff.
      by rewrite !Qle_bool_iff.
  - split.
    + intros [= H] [H1 H2]. apply andb_false_iff in H as [H|H];
        apply not_true_iff_false in H; apply H; by apply Qle_bool_iff.
    + intros Hn. f_equal. apply not_true_iff_false. intros H.
      apply andb_true_iff in H as [H1 H2]. apply Hn.
      by rewrite <- !Qle_bool_iff.
  - f_equal. apply andb_true_iff. rewrite !Qle_bool_iff.
    split; [apply Qle_refl|done].
  - f_equal. apply andb_true_iff. rewrite !Qle_bool_iff.
    split; [done|apply Qle_refl].
Qed.

(** The hemoglobin range (12.0, 16.5) at 11.9, 12.0, 16.5 and 16.6. *)
Lemma is_within_healthy_range_hemoglobin :
  healthy_ranges !! "Hemoglobin (g/dL)" = Some (PyFloat 12.0, PyFloat 16.5)
  ∧ is_within_healthy_range (CNum 11.9) "Hemoglobin (g/dL)" = Ok false
  ∧ is_within_healthy_range (CNum 12.0) "Hemoglobin (g/dL)" = Ok true
  ∧ is_within_healthy_range (CNum 16.5) "Hemoglobin (g/dL)" = Ok true
  ∧ is_within_healthy_range (CNum 16.6) "Hemoglobin (g/dL)" = Ok false.
Proof.
  assert (H : healthy_ranges !! "Hemoglobin (g/dL)"
              = Some (PyFloat 12.0, PyFloat 16.5)) by (vm_compute; reflexivity).
  split; [exact H|].
  split; [|split; [|split]].
  - apply (is_within_healthy_range_inclusive 11.9 _ _ _ H).
    cbn. intros [H1 _]. revert H1. by vm_compute.
  - apply (is_within_healthy_range_inclusive 12.0 _ _ _ H).
  - apply (is_within_healthy_range_inclusive 16.5 _ _ _ H).
  - apply (is_within_healthy_range_inclusive 16.6 _ _ _ H).
    cbn. intros [_ H2]. revert H2. by vm_compute.
Defined.

(** C6: for a parameter name that is not in the healthy-range table the
    classifier raises KeyError for that name, which is a LookupError; it
    returns no boolean. *)
Theorem is_within_healthy_range_unknown (v : Q) (p : string) :
  healthy_ranges !! p = None →
  is_within_healthy_range (CNum v) p = Raise (KeyError p)
  ∧ fails_with (is_within_healthy_range (CNum v) p) "LookupError"
  ∧ ∀ b, is_within_healthy_range (CNum v) p ≠ Ok b.
Proof.
  intros Hp. rewrite (is_within_healthy_range_absent _ _ Hp).
  split; [done|]. split; [|done].
  apply fails_with_Raise. reflexivity.
Qed.

Lemma is_within_healthy_range_unknown_age :
  healthy_ranges !! "Age" = None
  ∧ is_within_healthy_range (CNum 40) "Age" = Raise (KeyError "Age")
  ∧ fails_with (is_within_healthy_range (CNum 40) "Age") "LookupError".
Proof.
  assert (H : healthy_ranges !! "Age" = None) by (vm_compute; reflexivity).
  split; [exact H|].
  destruct (is_within_healthy_range_unknown 40 "Age" H) as (H1 & H2 & _).
  by split.
Defined.

(** C10: the cholesterol entry of the table is (0, 200); every negative
    cholesterol value is classified as outside the range, and up to 200 a
    value is outside the range exactly when it is negative, while the
    caption of the layout shows the upper bound only. *)
Theorem cholesterol_negative_flagged :
  healthy_ranges !! "Cholesterol (mg/dL)" = Some (PyInt 0, PyInt 200)
  ∧ (∀ v : Q, v < 0 →
       is_within_healthy_range (CNum v) "Cholesterol (mg/dL)" = Ok false)
  ∧ (∀ v : Q, v <= 200 →
       (is_within_healthy_range (CNum v) "Cholesterol (mg/dL)" = Ok false ↔ v < 0))
  ∧ (∃ others, desirable_ranges
       = Ok (others ++ [P [Lit "Cholesterol: Less than "; FmtNum (PyInt 200);
                           Lit " mg/dL"] []])%list).
Proof.
  assert (H : healthy_ranges !! "Cholesterol (mg/dL)" = Some (PyInt 0, PyInt 200))
    by (vm_compute; reflexivity).
  assert (Hneg : ∀ v : Q, v < 0 →
    is_within_healthy_range (CNum v) "Cholesterol (mg/dL)" = Ok false).
  { intros v Hv. rewrite (is_within_healthy_range_eq _ _ _ _ H). f_equal.
    apply andb_false_iff. left. apply not_true_iff_false.
    rewrite Qle_bool_iff. cbn. by apply Qlt_not_le. }
  split; [exact H|]. split; [exact Hneg|]. split.
  - intros v Hv. split; [|apply Hneg].
    rewrite (is_within_healthy_range_eq _ _ _ _ H). intros [= Hb].
    apply andb_false_iff in Hb as [Hb|Hb]; apply not_true_iff_false in Hb;
      rewrite Qle_bool_iff in Hb.
    + by apply Qnot_le_lt.
    + by destruct Hb.
  - eexists [_; _; _]. vm_compute. reflexivity.
Qed.

Lemma cholesterol_negative_flagged_minus_one :
  is_within_healthy_range (CNum (-1)) "Cholesterol (mg/dL)" = Ok false.
Proof.
  apply (proj1 (proj2 cholesterol_negative_flagged)). by vm_compute.
Defined.

(** ** Patient details *)

Lemma numeric_columns_elem (p : string) :
  p ∈ numeric_columns ↔
  p = "Hemoglobin (g/dL)" ∨ p = "White Blood Cell Count (10^3/μL)"
  ∨ p = "Platelet Count (10^3/μL)" ∨ p = "Cholesterol (mg/dL)".
Proof.
  unfold numeric_columns. rewrite !elem_of_cons, elem_of_nil. tauto.
Qed.

Lemma row_getitem_numeric (r : row) (p : string) :
  p ∈ numeric_columns → ∃ v, row_getitem r p = Ok (CNum v).
Proof.
  rewrite numeric_columns_elem. intros [-> | [-> | [-> | ->]]]; eexists; reflexivity.
Qed.

Lemma numeric_columns_configured (p : string) :
  p ∈ numeric_columns → ∃ lo hi, healthy_ranges !! p = Some (lo, hi).
Proof.
  rewrite numeric_columns_elem.
  intros [-> | [-> | [-> | ->]]]; eexists _, _; vm_compute; reflexivity.
Qed.

Lemma param_line_ok (r : row) (p : string) :
  p ∈ numeric_columns → ∃ h, param_line r p = Ok h.
Proof.
  intros Hp. destruct (row_getitem_numeric r p Hp) as [v Hv].
  destruct (numeric_columns_configured p Hp) as (lo & hi & Hr).
  unfold param_line. rewrite Hv. cbn.
  rewrite (is_within_healthy_range_eq _ _ _ _ Hr). cbn.
  destruct (_ && _); eauto.
Qed.

Lemma row_details_ok (r : row) : ∃ hs, row_details r = Ok hs.
Proof.
  unfold row_details.
  destruct (mapM_outcome_ok (param_line r) numeric_columns) as (ys & Hys & _).
  { intros p Hp. by apply param_line_ok. }
  rewrite Hys. cbn. eauto.
Qed.

(** C8: every name of the dropdown list occurs exactly once among the
    entries of the healthy-range table and is a key of it; so for every row
    the value of such a column is classified with a boolean, and the
    patient-details callback ends without an exception on every dataset and
    every input. *)
Theorem numeric_columns_have_one_range :
  (∀ p, p ∈ numeric_columns →
     length (filter (λ kv, kv.1 = p) healthy_ranges_items) = 1%nat
     ∧ is_Some (healthy_ranges !! p))
  ∧ (∀ (r : row) p, p ∈ numeric_columns →
       ∃ v b, row_getitem r p = Ok (CNum v)
              ∧ is_within_healthy_range (CNum v) p = Ok b)
  ∧ (∀ df n_clicks id, ∃ out, display_patient_details df n_clicks id = Ok out)
  ∧ (∀ df n_clicks id,
       ¬ fails_with (display_patient_details df n_clicks id) "LookupError").
Proof.
  assert (Hdisp : ∀ df n_clicks id,
            ∃ out, display_patient_details df n_clicks id = Ok out).
  { intros df n_clicks id. unfold display_patient_details.
    destruct (not_clicks n_clicks); [eauto|].
    destruct (not_text id); [eauto|].
    destruct (patient_details df (default "" id)) as [|r found]; [eauto|].
    destruct (mapM_outcome_ok row_details (r :: found)) as (ys & Hys & _).
    { intros x _. apply row_details_ok. }
    rewrite Hys. cbn. eauto. }
  split; [|split; [|split]].
  - intros p Hp. split.
    + apply numeric_columns_elem in Hp as [-> | [-> | [-> | ->]]];
        by vm_compute.
    + destruct (numeric_columns_configured p Hp) as (lo & hi & Hr).
      rewrite Hr. eauto.
  - intros r p Hp. destruct (row_getitem_numeric r p Hp) as [v Hv].
    destruct (numeric_columns_configured p Hp) as (lo & hi & Hr).
    exists v. eexists. split; [done|].
    by apply (is_within_healthy_range_eq _ _ _ _ Hr).
  - exact Hdisp.
  - intros df n_clicks id. destruct (Hdisp df n_clicks id) as [out Hout].
    rewrite Hout. apply fails_with_Ok.
Qed.

Lemma numeric_columns_have_one_range_platelets :
  ∃ b, is_within_healthy_range (CNum 500) "Platelet Count (10^3/μL)" = Ok b.
Proof.
  destruct (proj1 (proj2 numeric_columns_have_one_range)
              (Row "P1" 40 "F" 13 7 500 180) "Platelet Count (10^3/μL)")
    as (v & b & Hv & Hb).
  - apply numeric_columns_elem. tauto.
  - injection Hv as <-. by exists b.
Defined.

Lemma patient_details_maximal (df l : list row) (id : string) :
  sublist l df → Forall (λ r, patient_id r = id) l →
  sublist l (patient_details df id).
Proof.
  unfold patient_details. intros Hsub. induction Hsub as [|x l1 l2 _ IH|x l1 l2 _ IH];
    intros Hall.
  - constructor.
  - apply Forall_cons in Hall as [Hx Hall].
    rewrite filter_cons_True by done. constructor. by apply IH.
  - rewrite filter_cons. destruct (decide _); [constructor|]; by apply IH.
Qed.

(** C7: the lookup returns the rows of the dataset whose identifier equals
    the one searched, all of them and in dataset order: the result is a
    subsequence of the dataset, made of matching rows, and every matching
    subsequence of the dataset is a subsequence of it.  It is empty exactly
    when no row matches, and the callback then answers with the "not found"
    paragraph and no error. *)
Theorem patient_details_exact (df : list row) (id : string) :
  sublist (patient_details df id) df
  ∧ (∀ r, r ∈ patient_details df id ↔ r ∈ df ∧ patient_id r = id)
  ∧ (∀ l, sublist l df → Forall (λ r, patient_id r = id) l →
          sublist l (patient_details df id))
  ∧ (patient_details df id = [] ↔ ∀ r, r ∈ df → patient_id r ≠ id)
  ∧ (∀ n : Z, n ≠ 0%Z → id ≠ "" → (∀ r, r ∈ df → patient_id r ≠ id) →
       display_patient_details df (Some n) (Some id)
       = Ok (One (P [Lit "Patient ID not found"] []))).
Proof.
  assert (Hmem : ∀ r, r ∈ patient_details df id ↔ r ∈ df ∧ patient_id r = id).
  { intros r. unfold patient_details. rewrite list_elem_of_filter. tauto. }
  assert (Hnil : patient_details df id = [] ↔ ∀ r, r ∈ df → patient_id r ≠ id).
  { split.
    - intros Hempty r Hr Hid.
      assert (r ∈ patient_details df id) as Hin by (by apply Hmem).
      rewrite Hempty in Hin. by apply elem_of_nil in Hin.
    - intros Hno. apply elem_of_nil_inv. intros r Hr.
      apply Hmem in Hr as [Hr Hid]. by destruct (Hno r). }
  split; [apply sublist_filter|]. split; [exact Hmem|].
  split; [intros l; apply patient_details_maximal|]. split; [exact Hnil|].
  intros n Hn Hid Hno. unfold display_patient_details. cbn.
  apply Z.eqb_neq in Hn. rewrite Hn.
  apply String.eqb_neq in Hid. rewrite Hid.
  apply Hnil in Hno. by rewrite Hno.
Qed.

(** Two rows for "P1" come back in order; "X" is not found. *)
Lemma patient_details_exact_P1 :
  patient_details [ Row "P1" 40 "F" 13 7 200 180; Row "P2" 51 "M" 11 12 140 240;
                    Row "P1" 41 "F" 14 6 210 190 ] "P1"
  = [ Row "P1" 40 "F" 13 7 200 180; Row "P1" 41 "F" 14 6 210 190 ]
  ∧ patient_details [ Row "P1" 40 "F" 13 7 200 180; Row "P2" 51 "M" 11 12 140 240;
                      Row "P1" 41 "F" 14 6 210 190 ] "X" = []
  ∧ display_patient_details
      [ Row "P1" 40 "F" 13 7 200 180; Row "P2" 51 "M" 11 12 140 240;
        Row "P1" 41 "F" 14 6 210 190 ] (Some 1%Z) (Some "X")
    = Ok (One (P [Lit "Patient ID not found"] [])).
Proof.
  set (df := [ Row "P1" 40 "F" 13 7 200 180; Row "P2" 51 "M" 11 12 140 240;
               Row "P1" 41 "F" 14 6 210 190 ]).
  assert (Hno : ∀ r, r ∈ df → patient_id r ≠ "X").
  { intros r. unfold df. rewrite !elem_of_cons, elem_of_nil.
    by intros [-> | [-> | [-> | []]]]. }
  destruct (patient_details_exact df "X") as (_ & _ & _ & Hnil & Hdisp).
  split; [by vm_compute|]. split; [by apply Hnil|].
  by apply Hdisp.
Defined.

(** ** Summary statistics *)

Lemma unique_from_length (seen : gset string) (l : list string) :
  length (unique_from seen l) = size (list_to_set l ∖ seen : gset string).
Proof.
  revert seen. induction l as [|x l IH]; intros seen; cbn [unique_from].
  - replace (list_to_set [] ∖ seen : gset string) with (∅ : gset string)
      by set_solver.
    by rewrite size_empty.
  - rewrite list_to_set_cons. destruct (decide (x ∈ seen)) as [Hin|Hout].
    + rewrite IH. f_equal. set_solver.
    + cbn [length]. rewrite IH.
      assert (({[x]} ∪ list_to_set l) ∖ seen
              = ({[x]} ∪ list_to_set l ∖ ({[x]} ∪ seen) : gset string)) as ->.
      { apply set_eq. intros y. destruct (decide (y = x)) as [->|]; set_solver. }
      symmetry. etrans; [apply size_union; set_solver|].
      by rewrite size_singleton.
Qed.

Lemma numbers_CNum (l : list Q) : numbers (CNum <$> l) = Some l.
Proof.
  unfold numbers. induction l as [|q l IH]; [done|].
  cbn. cbn in IH. by rewrite IH.
Qed.

Lemma df_getitem_numeric (df : list row) (column : string) (f : row → Q) :
  column ∈ df_columns → (∀ r, row_getitem r column = Ok (CNum (f r))) →
  df_getitem df column = Ok (CNum <$> (f <$> df)).
Proof.
  intros Hcol Hf. unfold df_getitem. rewrite bool_decide_eq_true_2 by done.
  induction df as [|r df IH]; [done|].
  cbn. rewrite Hf. cbn. cbn in IH. by rewrite IH.
Qed.

Lemma column_stat_numeric (stat : list Q → fval) (df : list row)
    (column : string) (f : row → Q) :
  column ∈ df_columns → (∀ r, row_getitem r column = Ok (CNum (f r))) →
  column_stat stat df column = Ok (stat (f <$> df)).
Proof.
  intros Hcol Hf. unfold column_stat.
  rewrite (df_getitem_numeric df column f Hcol Hf). cbn.
  by rewrite numbers_CNum.
Qed.

Lemma df_columns_elem (column : string) :
  column = "Age" ∨ column ∈ numeric_columns → column ∈ df_columns.
Proof. unfold df_columns. set_solver. Qed.

Lemma mean_age_eq (df : list row) : mean_age df = Ok (Series_mean (age <$> df)).
Proof.
  apply column_stat_numeric; [apply df_columns_elem; by left|done].
Qed.

(** The field of a row that a numeric column name reads. *)
Lemma numeric_column_field (p : string) :
  p ∈ numeric_columns →
  ∃ f : row → Q, ∀ r, row_getitem r p = Ok (CNum (f r)).
Proof.
  rewrite numeric_columns_elem. intros [-> | [-> | [-> | ->]]].
  - by exists hemoglobin.
  - by exists white_blood_cell_count.
  - by exists platelet_count.
  - by exists cholesterol.
Qed.

(** C9: the count of unique patients is the number of distinct patient
    identifiers among the rows, the size of the set of identifiers; it is
    what the summary shows, and on identifiers P1, P1, P2 it is 2. *)
Theorem distinct_patient_count_size :
  (∀ df, distinct_patient_count df
         = size (list_to_set (patient_id <$> df) : gset string))
  ∧ (∀ df, ∃ shown rest,
       data_summary df = Ok (P [Lit "Number of unique patients: "; FmtInt shown] []
                             :: rest)
       ∧ shown = size (list_to_set (patient_id <$> df) : gset string))
  ∧ distinct_patient_count
      [ Row "P1" 40 "F" 13 7 200 180; Row "P1" 41 "F" 14 6 210 190;
        Row "P2" 51 "M" 11 12 140 240 ] = 2%nat.
Proof.
  assert (Hsize : ∀ df, distinct_patient_count df
                        = size (list_to_set (patient_id <$> df) : gset string)).
  { intros df. unfold distinct_patient_count, nunique.
    rewrite unique_from_length. f_equal. set_solver. }
  split; [exact Hsize|]. split; [|by vm_compute].
  intros df. rewrite <- Hsize. unfold data_summary, median, stddev.
  rewrite mean_age_eq.
  rewrite (column_stat_numeric _ df "Hemoglobin (g/dL)" hemoglobin)
    by (try apply df_columns_elem; try right; by try apply numeric_columns_elem; tauto).
  rewrite (column_stat_numeric _ df "Platelet Count (10^3/μL)" platelet_count)
    by (try apply df_columns_elem; try right; by try apply numeric_columns_elem; tauto).
  cbn. eauto.
Qed.

Lemma median_eq (df : list row) (p : string) (f : row → Q) :
  p ∈ numeric_columns → (∀ r, row_getitem r p = Ok (CNum (f r))) →
  median df p = Ok (Series_median (f <$> df)).
Proof.
  intros Hp Hf. apply column_stat_numeric; [apply df_columns_elem; by right|done].
Qed.

Lemma stddev_eq (df : list row) (p : string) (f : row → Q) :
  p ∈ numeric_columns → (∀ r, row_getitem r p = Ok (CNum (f r))) →
  stddev df p = Ok (Series_std (f <$> df)).
Proof.
  intros Hp Hf. apply column_stat_numeric; [apply df_columns_elem; by right|done].
Qed.

(** C5, as the claim states it, fails: on the dataset without rows the mean
    age is computed without any exception, and its value is NaN. *)
Lemma mean_age_empty_no_error :
  mean_age [] = Ok NaN ∧ ¬ fails_with (mean_age []) "EmptyDatasetError".
Proof.
  split; [by vm_compute|]. rewrite mean_age_eq. apply fails_with_Ok.
Qed.

(** C5, amended: on a dataset without rows the mean age, and the median and
    the standard deviation of every numeric parameter, are computed without
    any exception and are NaN, and the summary shows these NaN values. *)
Theorem summary_statistics_empty (p : string) :
  p ∈ numeric_columns →
  mean_age [] = Ok NaN
  ∧ median [] p = Ok NaN
  ∧ stddev [] p = Ok NaN
  ∧ (∀ cls, ¬ fails_with (mean_age []) cls
            ∧ ¬ fails_with (median [] p) cls
            ∧ ¬ fails_with (stddev [] p) cls)
  ∧ data_summary []
    = Ok [ P [Lit "Number of unique patients: "; FmtInt 0] [];
           P [Lit "Mean Age: "; Fmt2f NaN] [];
           P [Lit "Median Hemoglobin: "; Fmt2f NaN] [];
           P [Lit "Standard Deviation Platelet Count: "; Fmt2f NaN] [] ].
Proof.
  intros Hp. destruct (numeric_column_field p Hp) as [f Hf].
  rewrite mean_age_eq, (median_eq [] p f Hp Hf), (stddev_eq [] p f Hp Hf).
  cbn. repeat split; try done; try apply fails_with_Ok.
Qed.

Lemma summary_statistics_empty_hemoglobin :
  median [] "Hemoglobin (g/dL)" = Ok NaN
  ∧ stddev [] "Hemoglobin (g/dL)" = Ok NaN.
Proof.
  destruct (summary_statistics_empty "Hemoglobin (g/dL)") as (_ & H1 & H2 & _).
  - apply numeric_columns_elem. tauto.
  - by split.
Defined.

(** ** Sums, means and variances *)

Lemma count_cons (x : Q) (l : list Q) : count (x :: l) == count l + 1.
Proof.
  unfold count. cbn [length]. rewrite Nat2Z.inj_succ. unfold Z.succ.
  rewrite inject_Z_plus. reflexivity.
Qed.

Lemma count_nonneg (l : list Q) : 0 <= count l.
Proof.
  unfold count. change 0 with (inject_Z 0). rewrite <- Zle_Qle. lia.
Qed.

Lemma Qsum_cons (x : Q) (l : list Q) : Qsum (x :: l) = x + Qsum l.
Proof. reflexivity. Qed.

Lemma sum_centered (m m' : Q) (xs ys : list Q) :
  length xs = length ys →
  Qsum (zip_with (λ x y, (x - m) * (y - m')) xs ys)
  == dot xs ys - m' * Qsum xs - m * Qsum ys + count xs * m * m'.
Proof.
  revert ys. induction xs as [|x xs IH]; intros [|y ys] Hlen; try done.
  - unfold dot, count. cbn. ring.
  - injection Hlen as Hlen. unfold dot in *. cbn [zip_with].
    rewrite !Qsum_cons, count_cons, (IH ys Hlen). ring.
Qed.

Lemma count_pos (x : Q) (l : list Q) : 0 < count (x :: l).
Proof.
  rewrite count_cons. pose proof (count_nonneg l). lra.
Qed.

Lemma count_length (xs ys : list Q) : length xs = length ys → count xs = count ys.
Proof. unfold count. by intros ->. Qed.

Lemma dot_replicate_1 (n : nat) (l : list Q) :
  length l = n → dot (replicate n 1) l == Qsum l.
Proof.
  intros <-. unfold dot. induction l as [|x l IH]; [reflexivity|].
  cbn [length replicate zip_with]. rewrite !Qsum_cons, IH. ring.
Qed.

Lemma dot_replicate_1_1 (l : list Q) :
  dot (replicate (length l) 1) (replicate (length l) 1) == count l.
Proof.
  rewrite dot_replicate_1 by apply length_replicate.
  induction l as [|x l IH]; [reflexivity|].
  cbn [length replicate]. rewrite Qsum_cons, count_cons, IH. ring.
Qed.

Lemma centered_sum_scaled (xs ys : list Q) :
  length xs = length ys →
  count xs * Qsum (zip_with (λ x y, (x - mean xs) * (y - mean ys)) xs ys)
  == count xs * dot xs ys - Qsum xs * Qsum ys.
Proof.
  intros Hlen. rewrite (sum_centered _ _ xs ys Hlen). unfold mean.
  rewrite <- (count_length xs ys Hlen).
  destruct xs as [|x xs].
  - unfold count. cbn. ring.
  - pose proof (count_pos x xs). field. lra.
Qed.


(** The determinant of the Gram matrix of the design with a constant. *)
Lemma gram_det_var (xs : list Q) :
  ¬ count xs - 1 == 0 →
  count xs * dot xs xs - Qsum xs * Qsum xs == count xs * (count xs - 1) * var xs.
Proof.
  intros Hn. rewrite <- (centered_sum_scaled xs xs eq_refl).
  unfold var, cov. field. done.
Qed.

(** ** Range of a column and constant columns *)

Lemma col_min_lower (x0 : Q) (rest : list Q) :
  Forall (λ x, col_min x0 rest <= x) (x0 :: rest).
Proof.
  unfold col_min. induction rest as [|y rest IH]; cbn [foldr].
  - constructor; [apply Qle_refl|constructor].
  - apply Forall_cons in IH as [IH0 IH].
    pose proof (Q.le_min_l y (foldr Qmin x0 rest)).
    pose proof (Q.le_min_r y (foldr Qmin x0 rest)).
    constructor; [lra|]. constructor; [done|].
    eapply Forall_impl; [exact IH|]. cbn. intros z Hz. lra.
Qed.

Lemma col_max_upper (x0 : Q) (rest : list Q) :
  Forall (λ x, x <= col_max x0 rest) (x0 :: rest).
Proof.
  unfold col_max. induction rest as [|y rest IH]; cbn [foldr].
  - constructor; [apply Qle_refl|constructor].
  - apply Forall_cons in IH as [IH0 IH].
    pose proof (Q.le_max_l y (foldr Qmax x0 rest)).
    pose proof (Q.le_max_r y (foldr Qmax x0 rest)).
    constructor; [lra|]. constructor; [done|].
    eapply Forall_impl; [exact IH|]. cbn. intros z Hz. lra.
Qed.

Lemma col_min_elem (x0 : Q) (rest : list Q) : col_min x0 rest ∈ x0 :: rest.
Proof.
  unfold col_min. induction rest as [|y rest IH]; cbn [foldr]; [left|].
  unfold Qmin, GenericMinMax.gmin. destruct (_ ?= _)%Q; set_solver.
Qed.

Lemma col_max_elem (x0 : Q) (rest : list Q) : col_max x0 rest ∈ x0 :: rest.
Proof.
  unfold col_max. induction rest as [|y rest IH]; cbn [foldr]; [left|].
  unfold Qmax, GenericMinMax.gmax. destruct (_ ?= _)%Q; set_solver.
Qed.

Lemma ptp_zero_all_equal (x0 : Q) (rest : list Q) :
  col_max x0 rest - col_min x0 rest == 0 → Forall (λ x, x == x0) (x0 :: rest).
Proof.
  intros Hptp. pose proof (col_min_lower x0 rest) as Hlo.
  pose proof (col_max_upper x0 rest) as Hhi.
  pose proof (Forall_inv Hlo) as Hlo0. pose proof (Forall_inv Hhi) as Hhi0.
  cbn in Hlo0, Hhi0.
  assert (Hboth : Forall (λ x, col_min x0 rest <= x ∧ x <= col_max x0 rest)
                          (x0 :: rest)) by (by apply Forall_and).
  eapply Forall_impl; [exact Hboth|].
  cbn. intros x [H1 H2]. lra.
Qed.

Lemma all_equal_sums (c : Q) (xs : list Q) :
  Forall (λ x, x == c) xs →
  Qsum xs == count xs * c ∧ dot xs xs == count xs * c * c.
Proof.
  induction 1 as [|x xs Hx _ [IH1 IH2]].
  - split; unfold dot, count; cbn; ring.
  - unfold dot in *. cbn [zip_with]. rewrite !Qsum_cons, count_cons, IH1, IH2, Hx.
    split; ring.
Qed.

Lemma all_equal_var (c : Q) (xs : list Q) :
  Forall (λ x, x == c) xs → var xs == 0.
Proof.
  intros Hall. destruct (Qeq_dec (count xs - 1) 0) as [Hz|Hnz].
  - unfold var, cov, Qdiv. rewrite Hz. change (/ 0) with 0. ring.
  - destruct (all_equal_sums c xs Hall) as [Hs Hd].
    pose proof (gram_det_var xs Hnz) as Hdet. rewrite Hs, Hd in Hdet.
    destruct xs as [|x xs]; [by vm_compute|].
    pose proof (count_pos x xs) as Hpos.
    assert (count (x :: xs) * (count (x :: xs) - 1) * var (x :: xs) == 0) as H0
      by (rewrite <- Hdet; ring).
    apply Qmult_integral in H0 as [H0|H0]; [|done].
    apply Qmult_integral in H0 as [H0|H0]; [lra|done].
Qed.

Lemma safe_is_const_var (xs : list Q) : 0 < var xs → safe_is_const xs = false.
Proof.
  intros Hvar. destruct (safe_is_const xs) eqn:E; [|done].
  destruct xs as [|x0 rest]; [done|]. cbn [safe_is_const] in E.
  apply andb_true_iff in E as [E _]. apply Qeq_bool_iff in E.
  apply ptp_zero_all_equal, all_equal_var in E. lra.
Qed.

(** ** The least-squares fit *)

Lemma params_getitem_pair (x_variable : string) (a b : Q) :
  x_variable ≠ "const" →
  params_getitem [("const", a); (x_variable, b)] "const" = Ok a
  ∧ params_getitem [("const", a); (x_variable, b)] x_variable = Ok b.
Proof.
  intros Hne. cbn [params_getitem]. rewrite !String.eqb_refl. split; [done|].
  assert (String.eqb "const" x_variable = false) as ->
    by (apply String.eqb_neq; congruence).
  done.
Qed.

Lemma OLS_fit_with_const (x_variable : string) (xs ys : list Q) :
  length xs = length ys → xs ≠ [] → safe_is_const xs = false →
  OLS_fit ys (add_constant x_variable xs)
  = Ok [("const", (pinv_solve2 (replicate (length xs) 1) xs ys).1);
        (x_variable, (pinv_solve2 (replicate (length xs) 1) xs ys).2)].
Proof.
  intros Hlen Hne Hconst. unfold add_constant. rewrite Hconst.
  unfold OLS_fit. cbn [x_col const_col x_name].
  rewrite Hlen, Nat.eqb_refl. cbn [negb].
  destruct xs as [|x0 rest]; [done|]. rewrite <- Hlen. cbn [length Nat.eqb].
  by destruct (pinv_solve2 _ _ _).
Qed.

Lemma fit_outcome (x_variable : string) (xs ys : list Q) (a b : Q) :
  x_variable ≠ "const" →
  OLS_fit ys (add_constant x_variable xs) = Ok [("const", a); (x_variable, b)] →
  fitted x_variable xs ys = Ok (a, b)
  ∧ ∀ x0 rest, xs = x0 :: rest →
      trendline_trace x_variable xs ys
      = Ok (Trace (linspace (col_min x0 rest) (col_max x0 rest) 100)
                  (map (λ x, a + b * x)
                       (linspace (col_min x0 rest) (col_max x0 rest) 100))
                  "lines" "Trendline").
Proof.
  intros Hne Hfit. destruct (params_getitem_pair x_variable a b Hne) as [Ha Hb].
  unfold fitted, trendline_trace. rewrite Hfit. cbn [mbind outcome_bind].
  rewrite Ha, Hb. split; [done|].
  intros x0 rest ->. done.
Qed.



(** The test on trace and determinant is the cut-off on the eigenvalues of
    the Gram matrix. *)
Lemma ill_conditioned_eigenvalues (g11 g12 g22 l_min l_max : Q) :
  0 <= l_min → l_min <= l_max → 0 < l_max →
  g11 + g22 == l_min + l_max → g11 * g22 - g12 * g12 == l_min * l_max →
  ill_conditioned g11 g12 g22 = true ↔ l_min <= rcond2 * l_max.
Proof.
  intros H0 Hle Hpos Htr Hdet. unfold ill_conditioned.
  rewrite Qle_bool_iff, Htr, Hdet.
  assert (0 < rcond2 ∧ rcond2 < 1) as Hr by (by vm_compute).
  generalize dependent rcond2. intros rho [Hr0 Hr1].
  assert (rho * ((l_min + l_max) * (l_min + l_max))
          - l_min * l_max * ((1 + rho) * (1 + rho))
          == (rho * l_max - l_min) * (l_max - rho * l_min)) as Hfac by ring.
  assert (0 < l_max - rho * l_min) as Hgap by nra.
  split; intros H; nra.
Qed.





(** The fit on a column that varies: two coefficients, and the trace drawn
    from them. *)
Lemma fitted_with_const (x_variable : string) (xs ys : list Q) :
  x_variable ≠ "const" → length xs = length ys → 0 < var xs →
  ∃ a b,
    fitted x_variable xs ys = Ok (a, b)
    ∧ a = (pinv_solve2 (replicate (length xs) 1) xs ys).1
    ∧ b = (pinv_solve2 (replicate (length xs) 1) xs ys).2
    ∧ ∃ x0 rest, xs = x0 :: rest
      ∧ trendline_trace x_variable xs ys
        = Ok (Trace (linspace (col_min x0 rest) (col_max x0 rest) 100)
                    (map (λ x, a + b * x)
                         (linspace (col_min x0 rest) (col_max x0 rest) 100))
                    "lines" "Trendline").
Proof.
  intros Hne Hlen Hvar.
  assert (xs ≠ []) as Hxs by (intros ->; by vm_compute in Hvar).
  pose proof (OLS_fit_with_const x_variable xs ys Hlen Hxs
                (safe_is_const_var xs Hvar)) as Hfit.
  destruct (fit_outcome x_variable xs ys _ _ Hne Hfit) as [Hfitted Htrace].
  eexists _, _. split; [exact Hfitted|]. split; [done|]. split; [done|].
  destruct xs as [|x0 rest]; [done|]. exists x0, rest. split; [done|].
  by apply Htrace.
Qed.





(** ** Sampling the range *)

Lemma linspace_length (start stop : Q) (num : nat) :
  length (linspace start stop num) = num.
Proof. unfold linspace. by rewrite length_map, length_seq. Qed.

Lemma linspace_lookup (start stop : Q) (num i : nat) (x : Q) :
  linspace start stop num !! i = Some x ↔
  (i < num)%nat
  ∧ x = inject_Z (Z.of_nat i)
        * ((stop - start) / inject_Z (Z.of_nat (num - 1))) + start.
Proof.
  unfold linspace. rewrite list_lookup_fmap, fmap_Some. split.
  - intros (j & Hj & ->). apply lookup_seq in Hj as [-> Hlt]. done.
  - intros [Hlt ->]. exists i. split; [|done]. by apply lookup_seq.
Qed.

Lemma linspace_ends (start stop : Q) (num : nat) :
  (1 < num)%nat →
  (∃ x, linspace start stop num !! 0%nat = Some x ∧ x == start)
  ∧ (∃ x, linspace start stop num !! (num - 1)%nat = Some x ∧ x == stop).
Proof.
  intros Hnum. split; eexists; (split; [apply linspace_lookup; split; [lia|done]|]).
  - cbn. ring.
  - assert (0 < inject_Z (Z.of_nat (num - 1))) as Hpos.
    { change 0 with (inject_Z 0). rewrite <- Zlt_Qlt. lia. }
    field. lra.
Qed.

Lemma linspace_step (start stop : Q) (num i : nat) (x x' : Q) :
  linspace start stop num !! i = Some x →
  linspace start stop num !! S i = Some x' →
  x' - x == (stop - start) / inject_Z (Z.of_nat (num - 1)).
Proof.
  rewrite !linspace_lookup. intros [Hi ->] [HSi ->].
  rewrite Nat2Z.inj_succ. unfold Z.succ. rewrite inject_Z_plus.
  assert (0 < inject_Z (Z.of_nat (num - 1))) as Hpos.
  { change 0 with (inject_Z 0). rewrite <- Zlt_Qlt. lia. }
  field. lra.
Qed.

Lemma linspace_within (start stop : Q) (num : nat) :
  (1 < num)%nat → start <= stop →
  Forall (λ x, start <= x ∧ x <= stop) (linspace start stop num).
Proof.
  intros Hnum Hle. apply Forall_lookup. intros i x Hx.
  apply linspace_lookup in Hx as [Hi ->].
  assert (0 < inject_Z (Z.of_nat (num - 1))) as Hpos.
  { change 0 with (inject_Z 0). rewrite <- Zlt_Qlt. lia. }
  assert (0 <= inject_Z (Z.of_nat i)) as Hi0.
  { change 0 with (inject_Z 0). rewrite <- Zle_Qle. lia. }
  assert (inject_Z (Z.of_nat i) <= inject_Z (Z.of_nat (num - 1))) as Hi1.
  { rewrite <- Zle_Qle. lia. }
  set (t := inject_Z (Z.of_nat i)) in *.
  set (m := inject_Z (Z.of_nat (num - 1))) in *.
  set (s := (stop - start) / m).
  assert (m * s == stop - start) as Hs by (unfold s; field; lra).
  assert (0 <= s) as Hs0.
  { unfold s. apply Qle_shift_div_l; [done|]. lra. }
  split.
  - pose proof (Qmult_le_0_compat t s Hi0 Hs0). lra.
  - pose proof (Qmult_le_compat_r t m s Hi1 Hs0). lra.
Qed.


(** ** Degenerate designs *)

Lemma OLS_fit_sizes (x_variable : string) (xs ys : list Q) :
  length xs ≠ length ys →
  OLS_fit ys (add_constant x_variable xs)
  = Raise (ValueError "endog and exog matrices are different sizes").
Proof.
  intros Hlen. unfold OLS_fit.
  assert (x_col (add_constant x_variable xs) = xs) as ->
    by (unfold add_constant; by destruct (safe_is_const xs)).
  assert ((length ys =? length xs)%nat = false) as ->
    by (apply Nat.eqb_neq; congruence).
  done.
Qed.

Lemma OLS_fit_no_rows (x_variable : string) (ys : list Q) :
  fails_with (OLS_fit ys (add_constant x_variable [])) "ValueError".
Proof.
  unfold OLS_fit, add_constant. cbn.
  destruct (negb _); apply fails_with_Raise; reflexivity.
Qed.

Lemma all_equal_min_max (c x0 : Q) (rest : list Q) :
  Forall (λ x, x == c) (x0 :: rest) →
  col_min x0 rest == c ∧ col_max x0 rest == c.
Proof.
  intros Hall. rewrite Forall_forall in Hall.
  split; apply Hall; [apply col_min_elem|apply col_max_elem].
Qed.

Lemma safe_is_const_nonzero (c : Q) (xs : list Q) :
  xs ≠ [] → Forall (λ x, x == c) xs → ¬ c == 0 → safe_is_const xs = true.
Proof.
  intros Hne Hall Hc. destruct xs as [|x0 rest]; [done|].
  destruct (all_equal_min_max c x0 rest Hall) as [Hmin Hmax].
  cbn [safe_is_const existsb]. apply andb_true_iff. split.
  - apply Qeq_bool_iff. rewrite Hmin, Hmax. ring.
  - apply orb_true_iff. left. apply negb_true_iff.
    destruct (Qeq_bool x0 0) eqn:E; [|done].
    apply Qeq_bool_iff in E. apply Forall_inv in Hall. cbn in Hall.
    destruct Hc. by rewrite <- Hall.
Qed.

Lemma safe_is_const_zero (xs : list Q) :
  Forall (λ x, x == 0) xs → safe_is_const xs = false.
Proof.
  intros Hall. destruct xs as [|x0 rest]; [done|].
  cbn [safe_is_const]. apply andb_false_iff. right.
  induction Hall as [|x xs Hx _ IH]; [done|].
  cbn [existsb]. apply orb_false_iff. split; [|done].
  apply negb_false_iff. by apply Qeq_bool_iff.
Qed.

Lemma dot_zero_l (xs ys : list Q) : Forall (λ x, x == 0) xs → dot xs ys == 0.
Proof.
  intros Hall. revert ys. unfold dot.
  induction Hall as [|x xs Hx _ IH]; intros [|y ys]; try reflexivity.
  cbn [zip_with]. rewrite Qsum_cons, IH, Hx. ring.
Qed.

Lemma pinv_solve2_zero_column (xs ys : list Q) :
  length xs = length ys → xs ≠ [] → Forall (λ x, x == 0) xs →
  (pinv_solve2 (replicate (length xs) 1) xs ys).1 == mean ys
  ∧ (pinv_solve2 (replicate (length xs) 1) xs ys).2 == 0.
Proof.
  intros Hlen Hne Hall. unfold pinv_solve2, pinv_gram.
  pose proof (dot_replicate_1_1 xs) as H11.
  pose proof (dot_replicate_1 (length xs) xs eq_refl) as H12.
  pose proof (dot_replicate_1 (length xs) ys (eq_sym Hlen)) as H1y.
  destruct (all_equal_sums 0 xs Hall) as [Hs Hd].
  pose proof (dot_zero_l xs ys Hall) as Hxy.
  set (ones := replicate (length xs) 1) in *.
  assert (0 < count xs) as Hn by (destruct xs; [done|apply count_pos]).
  destruct (Qeq_bool _ 0) eqn:E.
  - cbn [fst snd]. unfold mean. rewrite <- (count_length xs ys Hlen).
    rewrite H11, H12, H1y, Hs, Hd, Hxy. split; field; lra.
  - apply Qeq_bool_neq in E. destruct E.
    rewrite H11, H12, Hs, Hd. ring.
Qed.

Lemma params_getitem_errors (params : list (string * Q)) (name : string) (e : exn) :
  params_getitem params name = Raise e → e = KeyError name.
Proof.
  induction params as [|[k v] params IH]; cbn [params_getitem].
  - by intros [= <-].
  - destruct (String.eqb k name); [done|exact IH].
Qed.

Lemma OLS_fit_errors (ys : list Q) (X : exog) (e : exn) :
  OLS_fit ys X = Raise e → exn_class e = "ValueError".
Proof.
  unfold OLS_fit. destruct (negb _); [by intros [= <-]|].
  destruct (_ =? _)%nat; [by intros [= <-]|].
  destruct (const_col X); [by destruct (pinv_solve2 _ _ _)|done].
Qed.

Lemma trendline_trace_errors (x_variable : string) (xs ys : list Q) (e : exn) :
  trendline_trace x_variable xs ys = Raise e →
  exn_class e = "ValueError" ∨ exn_class e = "KeyError".
Proof.
  unfold trendline_trace.
  destruct (OLS_fit ys _) as [params|e'] eqn:Hfit; cbn [mbind outcome_bind].
  - destruct xs as [|x0 rest]; [intros [= <-]; by left|].
    destruct (params_getitem params "const") as [a|e1] eqn:Ha;
      cbn [mbind outcome_bind].
    + destruct (params_getitem params x_variable) as [b|e2] eqn:Hb;
        cbn [mbind outcome_bind]; [done|].
      intros [= <-]. apply params_getitem_errors in Hb as ->. by right.
    + intros [= <-]. apply params_getitem_errors in Ha as ->. by right.
  - intros [= <-]. left. by eapply OLS_fit_errors.
Qed.

(** ** The trendline *)




(** C3: on paired columns of equal length with var(x) > 0 the trendline has
    100 x-coordinates, the first the minimum of the x column and the last
    its maximum, each next one a constant step (max - min) / 99 further, all
    within [min, max]; and 100 y-coordinates, the i-th of which is
    intercept + slope * x_i for the fitted intercept and slope. *)
Theorem trendline_samples (x_variable : string) (xs ys : list Q) :
  x_variable ≠ "const" → length xs = length ys → 0 < var xs →
  ∃ a b lo hi x_range y_range,
    fitted x_variable xs ys = Ok (a, b)
    ∧ trendline_trace x_variable xs ys
      = Ok (Trace x_range y_range "lines" "Trendline")
    ∧ lo ∈ xs ∧ hi ∈ xs ∧ Forall (λ x, lo <= x ∧ x <= hi) xs
    ∧ length x_range = 100%nat ∧ length y_range = 100%nat
    ∧ (∃ x, x_range !! 0%nat = Some x ∧ x == lo)
    ∧ (∃ x, x_range !! 99%nat = Some x ∧ x == hi)
    ∧ (∀ i x x', x_range !! i = Some x → x_range !! S i = Some x' →
                 x' - x == (hi - lo) / 99)
    ∧ Forall (λ x, lo <= x ∧ x <= hi) x_range
    ∧ (∀ i x y, x_range !! i = Some x → y_range !! i = Some y →
                y = a + b * x).
Proof.
  intros Hne Hlen Hvar.
  destruct (fitted_with_const x_variable xs ys Hne Hlen Hvar)
    as (a & b & Hfit & _ & _ & x0 & rest & -> & Htrace).
  pose proof (col_min_lower x0 rest) as Hlo.
  pose proof (col_max_upper x0 rest) as Hhi.
  assert (col_min x0 rest <= col_max x0 rest) as Hle.
  { apply Forall_inv in Hlo, Hhi. cbn in Hlo, Hhi. lra. }
  destruct (linspace_ends (col_min x0 rest) (col_max x0 rest) 100) as [H0 H99];
    [lia|].
  exists a, b, (col_min x0 rest), (col_max x0 rest). eexists _, _.
  split; [exact Hfit|]. split; [exact Htrace|].
  split; [apply col_min_elem|]. split; [apply col_max_elem|].
  split; [by apply Forall_and|].
  split; [apply linspace_length|].
  split; [by rewrite length_map, linspace_length|].
  split; [exact H0|]. split; [exact H99|].
  split; [intros i x x'; apply linspace_step|].
  split; [apply linspace_within; [lia|done]|].
  intros i x y Hx. rewrite list_lookup_fmap, Hx. by intros [= <-].
Qed.

Lemma trendline_samples_three_points :
  ∃ x_range y_range,
    trendline_trace "Hemoglobin (g/dL)" [1; 2; 4] [5; 8; 14]
    = Ok (Trace x_range y_range "lines" "Trendline")
    ∧ length x_range = 100%nat.
Proof.
  destruct (trendline_samples "Hemoglobin (g/dL)" [1; 2; 4] [5; 8; 14])
    as (a & b & lo & hi & xr & yr & _ & Htrace & _ & _ & _ & Hlen & _);
    [done|done|by vm_compute|].
  exists xr, yr. split; [exact Htrace|exact Hlen].
Defined.

(** ** The scatter-plot callback *)

Lemma numeric_series_numeric (df : list row) (p : string) (f : row → Q) :
  p ∈ numeric_columns → (∀ r, row_getitem r p = Ok (CNum (f r))) →
  numeric_series df p = Ok (f <$> df).
Proof.
  intros Hp Hf. unfold numeric_series.
  rewrite (df_getitem_numeric df p f) by (try apply df_columns_elem; auto).
  cbn. by rewrite numbers_CNum.
Qed.

(** On two numeric columns the callback is the trendline computation on
    the values of these columns, row by row. *)
Lemma update_scatter_plot_numeric (df : list row) (x_variable y_variable : string)
    (fx fy : row → Q) :
  x_variable ∈ numeric_columns → y_variable ∈ numeric_columns →
  (∀ r, row_getitem r x_variable = Ok (CNum (fx r))) →
  (∀ r, row_getitem r y_variable = Ok (CNum (fy r))) →
  update_scatter_plot df x_variable y_variable
  = (trendline ← trendline_trace x_variable (fx <$> df) (fy <$> df);
     Ok (Figure (String.append x_variable (String.append " vs. " y_variable))
                (zip (fx <$> df) (fy <$> df)) [trendline])).
Proof.
  intros Hx Hy Hfx Hfy. unfold update_scatter_plot.
  rewrite !bool_decide_eq_true_2 by (apply df_columns_elem; by right).
  cbn [andb].
  rewrite (numeric_series_numeric df x_variable fx Hx Hfx).
  by rewrite (numeric_series_numeric df y_variable fy Hy Hfy).
Qed.

Lemma not_InvalidInputError (e : exn) :
  exn_class e = "ValueError" ∨ exn_class e = "KeyError" →
  isinstance e "InvalidInputError" = false.
Proof. destruct e as [cls arg]. cbn. by intros [-> | ->]. Qed.

(** C4, as the claim states it, fails: with x = [1, 1, 1] the computation
    ends in KeyError for the coefficient 'const', from the trendline alone
    and from the callback on a table whose hemoglobin column is 1, 1, 1;
    this is not an InvalidInputError. *)
Lemma trend_constant_x_KeyError :
  trendline_trace "Hemoglobin (g/dL)" [1; 1; 1] [1; 2; 3] = Raise (KeyError "const")
  ∧ ¬ fails_with (trendline_trace "Hemoglobin (g/dL)" [1; 1; 1] [1; 2; 3])
        "InvalidInputError"
  ∧ update_scatter_plot
      [ Row "P1" 40 "F" 1 7 200 180; Row "P2" 51 "M" 1 12 140 240;
        Row "P3" 35 "F" 1 6 210 190 ]
      "Hemoglobin (g/dL)" "Cholesterol (mg/dL)"
    = Raise (KeyError "const")
  ∧ ¬ fails_with
        (update_scatter_plot
           [ Row "P1" 40 "F" 1 7 200 180; Row "P2" 51 "M" 1 12 140 240;
             Row "P3" 35 "F" 1 6 210 190 ]
           "Hemoglobin (g/dL)" "Cholesterol (mg/dL)")
        "InvalidInputError".
Proof.
  set (df := [ Row "P1" 40 "F" 1 7 200 180; Row "P2" 51 "M" 1 12 140 240;
               Row "P3" 35 "F" 1 6 210 190 ]).
  assert (H1 : trendline_trace "Hemoglobin (g/dL)" [1; 1; 1] [1; 2; 3]
               = Raise (KeyError "const")) by (vm_compute; reflexivity).
  assert (H2 : update_scatter_plot df "Hemoglobin (g/dL)" "Cholesterol (mg/dL)"
               = Raise (KeyError "const")) by (vm_compute; reflexivity).
  rewrite H1, H2. repeat split; try done; by rewrite fails_with_Raise.
Qed.

(** C4, amended: the trend computation makes no check of its own and never
    ends in InvalidInputError; its only errors are ValueError and KeyError.
    Columns of unequal length, or without rows, are refused by the
    regression with ValueError (and two columns of one table always have
    equal length).  When all x are equal to one non-zero number no
    intercept column is added and reading the coefficient 'const' raises
    KeyError.  When all x are zero the fit succeeds with intercept mean(y)
    and slope 0, and the trendline is 100 points at x = 0. *)
Theorem trend_degenerate_inputs (x_variable : string) (xs ys : list Q) :
  x_variable ≠ "const" →
  ¬ fails_with (trendline_trace x_variable xs ys) "InvalidInputError"
  ∧ (∀ e, trendline_trace x_variable xs ys = Raise e →
          exn_class e = "ValueError" ∨ exn_class e = "KeyError")
  ∧ (length xs ≠ length ys ∨ xs = [] →
     fails_with (trendline_trace x_variable xs ys) "ValueError")
  ∧ (∀ df y_variable, x_variable ∈ numeric_columns →
       y_variable ∈ numeric_columns →
       ∃ xs' ys', numeric_series df x_variable = Ok xs'
                  ∧ numeric_series df y_variable = Ok ys'
                  ∧ length xs' = length ys')
  ∧ (∀ c, length xs = length ys → xs ≠ [] → Forall (λ x, x == c) xs →
          ¬ c == 0 →
          trendline_trace x_variable xs ys = Raise (KeyError "const"))
  ∧ (length xs = length ys → xs ≠ [] → Forall (λ x, x == 0) xs →
     ∃ a b x_range,
       fitted x_variable xs ys = Ok (a, b)
       ∧ a == mean ys ∧ b == 0
       ∧ trendline_trace x_variable xs ys
         = Ok (Trace x_range (map (λ x, a + b * x) x_range) "lines" "Trendline")
       ∧ length x_range = 100%nat
       ∧ Forall (λ x, x == 0) x_range).
Proof.
  intros Hname. split; [|split; [|split; [|split; [|split]]]].
  - intros (e & He & Hc). apply trendline_trace_errors in He.
    by rewrite (not_InvalidInputError e He) in Hc.
  - intros e. apply trendline_trace_errors.
  - intros Hbad. unfold trendline_trace.
    destruct (decide (length xs = length ys)) as [Hlen|Hlen].
    + destruct Hbad as [Hbad| ->]; [done|].
      destruct (OLS_fit_no_rows x_variable ys) as (e & He & Hc).
      rewrite He. by apply fails_with_Raise.
    + rewrite (OLS_fit_sizes x_variable xs ys Hlen). by apply fails_with_Raise.
  - intros df y_variable Hx Hy.
    destruct (numeric_column_field x_variable Hx) as [fx Hfx].
    destruct (numeric_column_field y_variable Hy) as [fy Hfy].
    exists (fx <$> df), (fy <$> df).
    rewrite (numeric_series_numeric df x_variable fx Hx Hfx).
    rewrite (numeric_series_numeric df y_variable fy Hy Hfy).
    by rewrite !length_fmap.
  - intros c Hlen Hxs Hall Hc. unfold trendline_trace, add_constant.
    rewrite (safe_is_const_nonzero c xs Hxs Hall Hc). unfold OLS_fit.
    cbn [x_col const_col x_name]. rewrite Hlen, Nat.eqb_refl. cbn [negb].
    destruct xs as [|x0 rest]; [done|]. rewrite <- Hlen. cbn [length Nat.eqb].
    cbn [mbind outcome_bind params_getitem].
    assert (String.eqb x_variable "const" = false) as ->
      by (by apply String.eqb_neq).
    done.
  - intros Hlen Hxs Hall.
    pose proof (OLS_fit_with_const x_variable xs ys Hlen Hxs
                  (safe_is_const_zero xs Hall)) as Hfit.
    destruct (pinv_solve2_zero_column xs ys Hlen Hxs Hall) as [Ha Hb].
    destruct (fit_outcome x_variable xs ys _ _ Hname Hfit) as [Hfitted Htrace].
    destruct xs as [|x0 rest]; [done|].
    destruct (all_equal_min_max 0 x0 rest Hall) as [Hmin Hmax].
    eexists _, _, _. split; [exact Hfitted|]. split; [exact Ha|].
    split; [exact Hb|]. split; [by apply Htrace|].
    split; [apply linspace_length|].
    apply Forall_lookup. intros i x Hx.
    apply linspace_lookup in Hx as [_ ->]. rewrite Hmin, Hmax.
    change (inject_Z (Z.of_nat (100 - 1))) with 99. field.
Qed.

Lemma trend_degenerate_inputs_zero_x :
  ∃ a b, fitted "Hemoglobin (g/dL)" [0; 0; 0] [1; 2; 3] = Ok (a, b)
         ∧ a == 2 ∧ b == 0.
Proof.
  destruct (trend_degenerate_inputs "Hemoglobin (g/dL)" [0; 0; 0] [1; 2; 3])
    as (_ & _ & _ & _ & _ & Hzero); [done|].
  destruct Hzero as (a & b & xr & Hfit & Ha & Hb & _);
    [done|done|repeat constructor; by vm_compute|].
  exists a, b. split; [exact Hfit|]. split; [|exact Hb].
  rewrite Ha. by vm_compute.
Defined.

(** * Further properties *)

(** ** The patient-details callback *)

Lemma param_line_eq (r : row) (p : string) (lo hi : pynum) (v : Q) :
  healthy_ranges !! p = Some (lo, hi) → row_getitem r p = Ok (CNum v) →
  param_line r p
  = Ok (P [Lit p; Lit ": "; Fmt (CNum v)]
          (if Qle_bool (num_val lo) v && Qle_bool v (num_val hi)
           then [] else [("color", "red")])).
Proof.
  intros Hp Hv. unfold param_line. rewrite Hv. cbn [mbind outcome_bind].
  rewrite (is_within_healthy_range_eq _ _ _ _ Hp). cbn [mbind outcome_bind].
  by destruct (_ && _).
Qed.

(** X1: a parameter paragraph of the patient details shows the name of the
    column and the value of the row; it has no style exactly when the value
    is within the healthy range of that column, ends included, and it is
    coloured red exactly when the value is not within that range. *)
Theorem param_line_red_iff_not_within (r : row) (p : string) (lo hi : pynum) (v : Q) :
  healthy_ranges !! p = Some (lo, hi) → row_getitem r p = Ok (CNum v) →
  ∃ style,
    param_line r p = Ok (P [Lit p; Lit ": "; Fmt (CNum v)] style)
    ∧ (style = [] ∨ style = [("color", "red")])
    ∧ (style = [] ↔ num_val lo <= v ∧ v <= num_val hi)
    ∧ (style = [("color", "red")] ↔ ¬ (num_val lo <= v ∧ v <= num_val hi)).
Proof.
  intros Hp Hv. rewrite (param_line_eq r p lo hi v Hp Hv).
  destruct (Qle_bool (num_val lo) v) eqn:E1;
    destruct (Qle_bool v (num_val hi)) eqn:E2; cbn [andb];
    eexists; (split; [reflexivity|]);
    try (apply Qle_bool_iff in E1); try (apply Qle_bool_iff in E2);
    try (apply not_true_iff_false in E1; rewrite Qle_bool_iff in E1);
    try (apply not_true_iff_false in E2; rewrite Qle_bool_iff in E2).
  - split; [by left|]. split; [tauto|]. split; [done|]. tauto.
  - split; [by right|]. split; [split; [done|tauto]|]. split; [tauto|done].
  - split; [by right|]. split; [split; [done|tauto]|]. split; [tauto|done].
  - split; [by right|]. split; [split; [done|tauto]|]. split; [tauto|done].
Qed.

Lemma param_line_red_iff_not_within_low_hemoglobin :
  param_line (Row "P1" 40 "F" 11.9 7 200 180) "Hemoglobin (g/dL)"
  = Ok (P [Lit "Hemoglobin (g/dL)"; Lit ": "; Fmt (CNum 11.9)] [("color", "red")]).
Proof.
  destruct (param_line_red_iff_not_within (Row "P1" 40 "F" 11.9 7 200 180)
              "Hemoglobin (g/dL)" (PyFloat 12.0) (PyFloat 16.5) 11.9)
    as (style & Hline & _ & _ & Hred); [by vm_compute|done|].
  rewrite Hline. f_equal. f_equal. apply Hred.
  intros [Hlo _]. apply Qle_bool_iff in Hlo. by vm_compute in Hlo.
Defined.

Lemma numeric_column_line (r : row) (p : string) :
  p ∈ numeric_columns →
  ∃ v style, row_getitem r p = Ok (CNum v)
             ∧ param_line r p = Ok (P [Lit p; Lit ": "; Fmt (CNum v)] style).
Proof.
  intros Hp. destruct (row_getitem_numeric r p Hp) as [v Hv].
  destruct (numeric_columns_configured p Hp) as (lo & hi & Hr).
  exists v. eexists. split; [done|]. by apply (param_line_eq r p lo hi v).
Qed.

(** The seven paragraphs of one row. *)
Lemma row_details_block (r : row) :
  ∃ s1 s2 s3 s4,
    row_details r
    = Ok [ P [Lit "Patient ID: "; Fmt (CStr (patient_id r))] [];
           P [Lit "Age: "; Fmt (CNum (age r))] [];
           P [Lit "Gender: "; Fmt (CStr (gender r))] [];
           P [Lit "Hemoglobin (g/dL)"; Lit ": "; Fmt (CNum (hemoglobin r))] s1;
           P [Lit "White Blood Cell Count (10^3/μL)"; Lit ": ";
              Fmt (CNum (white_blood_cell_count r))] s2;
           P [Lit "Platelet Count (10^3/μL)"; Lit ": ";
              Fmt (CNum (platelet_count r))] s3;
           P [Lit "Cholesterol (mg/dL)"; Lit ": "; Fmt (CNum (cholesterol r))] s4 ].
Proof.
  destruct (numeric_column_line r "Hemoglobin (g/dL)") as (v1 & s1 & Hv1 & H1);
    [apply numeric_columns_elem; tauto|].
  destruct (numeric_column_line r "White Blood Cell Count (10^3/μL)")
    as (v2 & s2 & Hv2 & H2); [apply numeric_columns_elem; tauto|].
  destruct (numeric_column_line r "Platelet Count (10^3/μL)")
    as (v3 & s3 & Hv3 & H3); [apply numeric_columns_elem; tauto|].
  destruct (numeric_column_line r "Cholesterol (mg/dL)") as (v4 & s4 & Hv4 & H4);
    [apply numeric_columns_elem; tauto|].
  injection Hv1 as <-. injection Hv2 as <-. injection Hv3 as <-. injection Hv4 as <-.
  exists s1, s2, s3, s4. unfold row_details, numeric_columns.
  cbn [mapM]. rewrite H1, H2, H3, H4. reflexivity.
Qed.

Lemma mapM_row_details (rows : list row) :
  ∃ blocks, mapM row_details rows = Ok blocks
            ∧ Forall2 (λ r b, row_details r = Ok b) rows blocks.
Proof.
  induction rows as [|r rows (blocks & Hblocks & Hall)].
  - exists []. split; [done|constructor].
  - destruct (row_details_ok r) as [b Hb]. exists (b :: blocks).
    cbn [mapM]. rewrite Hb. cbn [mbind outcome_bind]. rewrite Hblocks.
    split; [done|by constructor].
Qed.

Lemma not_clicks_true (n_clicks : option Z) :
  not_clicks n_clicks = true ↔ n_clicks = None ∨ n_clicks = Some 0%Z.
Proof.
  destruct n_clicks as [n|]; cbn; [|tauto]. rewrite Z.eqb_eq.
  split; [intros ->; by right|]. by intros [|[= ->]].
Qed.

Lemma not_text_true (s : option string) :
  not_text s = true ↔ s = None ∨ s = Some "".
Proof.
  destruct s as [t|]; cbn; [|tauto]. rewrite String.eqb_eq.
  split; [intros ->; by right|]. by intros [|[= ->]].
Qed.

(** X2: the four answers of the patient-details callback.  Without a click
    (no count or the count 0) it asks for an identifier, whatever the text
    box holds; after a click with no text or the empty text it asks for a
    valid identifier; after a click with a text that matches no row it
    answers "Patient ID not found"; and it lists details exactly when there
    was a click, the text is not empty and some row has that identifier. *)
Theorem display_patient_details_cases (df : list row)
    (n_clicks : option Z) (id : option string) :
  (n_clicks = None ∨ n_clicks = Some 0%Z →
   display_patient_details df n_clicks id
   = Ok (One (P [Lit "Enter a Patient ID and click 'Search' to view details"] [])))
  ∧ (¬ (n_clicks = None ∨ n_clicks = Some 0%Z) → id = None ∨ id = Some "" →
     display_patient_details df n_clicks id
     = Ok (One (P [Lit "Enter a valid Patient ID to view details"] [])))
  ∧ (∀ s, ¬ (n_clicks = None ∨ n_clicks = Some 0%Z) → id = Some s → s ≠ "" →
          (∀ r, r ∈ df → patient_id r ≠ s) →
          display_patient_details df n_clicks id
          = Ok (One (P [Lit "Patient ID not found"] [])))
  ∧ ((∃ hs, display_patient_details df n_clicks id = Ok (Many hs))
     ↔ ¬ (n_clicks = None ∨ n_clicks = Some 0%Z)
       ∧ ∃ s r, id = Some s ∧ s ≠ "" ∧ r ∈ df ∧ patient_id r = s).
Proof.
  unfold display_patient_details.
  destruct (not_clicks n_clicks) eqn:Hc.
  { apply not_clicks_true in Hc.
    split; [done|]. split; [intros H; by destruct H|].
    split; [intros s H; by destruct H|].
    split; [by intros [hs [=]]|]. intros [H _]. by destruct H. }
  assert (Hn : ¬ (n_clicks = None ∨ n_clicks = Some 0%Z)).
  { rewrite <- not_clicks_true, Hc. done. }
  split; [intros H; by destruct Hn|]. destruct (not_text id) eqn:Ht.
  { apply not_text_true in Ht. split; [done|]. split.
    - intros s _ -> Hs. by destruct Ht as [|[= ->]].
    - split; [by intros [hs [=]]|].
      intros (_ & s & r & -> & Hs & _). by destruct Ht as [|[= ->]]. }
  assert (Hi : ¬ (id = None ∨ id = Some "")).
  { rewrite <- not_text_true, Ht. done. }
  split; [intros _ H; by destruct Hi|]. destruct id as [s|]; [|by destruct Hi; left].
  change (default "" (Some s)) with s.
  assert (Hfound : ∀ r, r ∈ patient_details df s ↔ r ∈ df ∧ patient_id r = s).
  { intros r. unfold patient_details. rewrite list_elem_of_filter. tauto. }
  split.
  - intros s' _ [= <-] _ Hno.
    destruct (patient_details df s) as [|r found] eqn:E; [done|].
    assert (r ∈ r :: found) as Hin by left.
    apply Hfound in Hin as [Hin Hid]. by destruct (Hno r).
  - destruct (patient_details df s) as [|r found] eqn:E.
    + split; [by intros [hs [=]]|].
      intros (_ & s' & r & [= <-] & _ & Hr & Hid).
      assert (r ∈ []) as Hin by (by apply Hfound).
      by apply elem_of_nil in Hin.
    + destruct (mapM_row_details (r :: found)) as (blocks & Hblocks & _).
      rewrite Hblocks. cbn [mbind outcome_bind]. split; [|by eauto].
      intros _. split; [done|].
      assert (r ∈ r :: found) as Hin by left.
      apply Hfound in Hin as [Hin Hid].
      exists s, r. split; [done|]. split; [|done].
      intros ->. destruct Hi. by right.
Qed.

Lemma display_patient_details_cases_no_click :
  display_patient_details [Row "P1" 40 "F" 13 7 200 180] None (Some "P1")
  = Ok (One (P [Lit "Enter a Patient ID and click 'Search' to view details"] [])).
Proof.
  apply (proj1 (display_patient_details_cases _ None (Some "P1"))). by left.
Defined.

(** X3: when the callback lists details, the list is made of one block of
    seven paragraphs per matching row, the blocks in dataset order: the
    identifier, age and gender of the row, never styled, then one paragraph
    per numeric column in the order of the dropdown list, each showing the
    value of that row. *)
Theorem display_patient_details_blocks (df : list row) (n_clicks : option Z)
    (id : option string) (hs : list html) :
  display_patient_details df n_clicks id = Ok (Many hs) →
  ∃ s blocks,
    id = Some s
    ∧ hs = concat blocks
    ∧ length hs = (7 * length (patient_details df s))%nat
    ∧ Forall2 (λ r b, ∃ s1 s2 s3 s4,
         b = [ P [Lit "Patient ID: "; Fmt (CStr s)] [];
               P [Lit "Age: "; Fmt (CNum (age r))] [];
               P [Lit "Gender: "; Fmt (CStr (gender r))] [];
               P [Lit "Hemoglobin (g/dL)"; Lit ": "; Fmt (CNum (hemoglobin r))] s1;
               P [Lit "White Blood Cell Count (10^3/μL)"; Lit ": ";
                  Fmt (CNum (white_blood_cell_count r))] s2;
               P [Lit "Platelet Count (10^3/μL)"; Lit ": ";
                  Fmt (CNum (platelet_count r))] s3;
               P [Lit "Cholesterol (mg/dL)"; Lit ": ";
                  Fmt (CNum (cholesterol r))] s4 ])
       (patient_details df s) blocks.
Proof.
  unfold display_patient_details.
  destruct (not_clicks n_clicks); [done|]. destruct id as [s|]; [|done].
  destruct (not_text (Some s)); [done|]. change (default "" (Some s)) with s.
  assert (Hid : Forall (λ r, patient_id r = s) (patient_details df s)).
  { apply Forall_forall. intros r. unfold patient_details.
    rewrite list_elem_of_filter. tauto. }
  destruct (mapM_row_details (patient_details df s)) as (blocks & Hblocks & Hall).
  destruct (patient_details df s) as [|r found] eqn:E; [done|].
  rewrite Hblocks. cbn [mbind outcome_bind]. intros [= <-].
  exists s, blocks. split; [done|]. split; [done|]. rewrite E.
  match goal with |- context [Forall2 ?f _ _] => set (shape := f) end.
  assert (Hshape : ∀ rows bs,
    Forall (λ r, patient_id r = s) rows →
    Forall2 (λ r b, row_details r = Ok b) rows bs → Forall2 shape rows bs).
  { intros rows bs HF HA. induction HA as [|r' b rows bs Hb _ IH].
    - constructor.
    - apply Forall_cons in HF as [Hr HF]. constructor; [|by apply IH].
      destruct (row_details_block r') as (s1 & s2 & s3 & s4 & Hblock).
      rewrite Hblock in Hb. injection Hb as <-. rewrite Hr.
      by exists s1, s2, s3, s4. }
  assert (Hlen : ∀ rows bs,
    Forall2 shape rows bs → length (concat bs) = (7 * length rows)%nat).
  { intros rows bs HA. induction HA as [|r' b rows bs Hb _ IH]; [done|].
    destruct Hb as (s1 & s2 & s3 & s4 & ->).
    cbn [concat]. rewrite length_app, IH. cbn [length]. lia. }
  specialize (Hshape _ _ Hid Hall). split; [by apply Hlen|exact Hshape].
Qed.

Lemma display_patient_details_blocks_two_rows :
  ∃ hs, display_patient_details
          [ Row "P1" 40 "F" 13 7 200 180; Row "P2" 51 "M" 11 12 140 240;
            Row "P1" 41 "F" 14 6 210 190 ] (Some 1%Z) (Some "P1") = Ok (Many hs)
        ∧ length hs = 14%nat.
Proof.
  eexists. split; [vm_compute; reflexivity|].
  match goal with |- length ?h = _ => set (hs := h) end.
  destruct (display_patient_details_blocks
              [ Row "P1" 40 "F" 13 7 200 180; Row "P2" 51 "M" 11 12 140 240;
                Row "P1" 41 "F" 14 6 210 190 ] (Some 1%Z) (Some "P1") hs)
    as (s & blocks & Hs & _ & Hlen & _); [by vm_compute|].
  injection Hs as <-. rewrite Hlen. by vm_compute.
Defined.

(** ** Distinct identifiers and the lookup *)

Lemma nunique_size (l : list string) :
  nunique l = size (list_to_set l : gset string).
Proof.
  unfold nunique. rewrite unique_from_length. f_equal. set_solver.
Qed.

Lemma unique_from_elem (seen : gset string) (l : list string) (x : string) :
  x ∈ unique_from seen l ↔ x ∈ l ∧ x ∉ seen.
Proof.
  revert seen. induction l as [|y l IH]; intros seen; cbn [unique_from].
  - set_solver.
  - destruct (decide (y ∈ seen)) as [Hin|Hout].
    + rewrite IH. set_solver.
    + rewrite !elem_of_cons, IH. destruct (decide (x = y)) as [->|]; set_solver.
Qed.

Lemma unique_from_NoDup (seen : gset string) (l : list string) :
  NoDup (unique_from seen l).
Proof.
  revert seen. induction l as [|y l IH]; intros seen; cbn [unique_from].
  - constructor.
  - destruct (decide (y ∈ seen)); [apply IH|].
    constructor; [|apply IH]. rewrite unique_from_elem. set_solver.
Qed.

Lemma unique_from_length_le (seen : gset string) (l : list string) :
  (length (unique_from seen l) <= length l)%nat.
Proof.
  revert seen. induction l as [|y l IH]; intros seen; cbn [unique_from length].
  - lia.
  - destruct (decide (y ∈ seen)); cbn [length].
    + specialize (IH seen). lia.
    + specialize (IH ({[y]} ∪ seen)). lia.
Qed.

Lemma unique_from_length_eq (seen : gset string) (l : list string) :
  length (unique_from seen l) = length l ↔
  NoDup l ∧ ∀ x, x ∈ l → x ∉ seen.
Proof.
  revert seen. induction l as [|y l IH]; intros seen; cbn [unique_from length].
  - split; [intros _; split; [constructor|set_solver]|done].
  - destruct (decide (y ∈ seen)) as [Hin|Hout].
    + split.
      * intros Hlen. pose proof (unique_from_length_le seen l). lia.
      * intros [_ Hfresh]. destruct (Hfresh y); [left|done].
    + cbn [length]. rewrite NoDup_cons. split.
      * intros [= Hlen]. apply IH in Hlen as [Hnd Hfresh].
        split; [split; [|done]|].
        -- intros Hy. apply Hfresh in Hy. set_solver.
        -- intros x. rewrite elem_of_cons. intros [->|Hx]; [done|].
           apply Hfresh in Hx. set_solver.
      * intros [[Hy Hnd] Hfresh]. f_equal. apply IH. split; [done|].
        intros x Hx. specialize (Hfresh x). set_solver.
Qed.

(** X4: the number of unique patients never exceeds the number of rows and
    equals it exactly when no identifier occurs twice; it is zero only for
    the table without rows; and it does not depend on the order of the
    rows. *)
Theorem distinct_patient_count_bounds (df : list row) :
  (distinct_patient_count df <= length df)%nat
  ∧ (distinct_patient_count df = length df ↔ NoDup (patient_id <$> df))
  ∧ (distinct_patient_count df = 0%nat ↔ df = [])
  ∧ (∀ df', df ≡ₚ df' → distinct_patient_count df' = distinct_patient_count df).
Proof.
  unfold distinct_patient_count, nunique. split; [|split; [|split]].
  - pose proof (unique_from_length_le ∅ (patient_id <$> df)) as H.
    by rewrite length_fmap in H.
  - rewrite <- (length_fmap patient_id df) at 1. rewrite unique_from_length_eq.
    set_solver.
  - destruct df as [|r df]; [done|]. cbn. split; [|done].
    destruct (decide (patient_id r ∈ (∅ : gset string))); [set_solver|done].
  - intros df' Hperm. fold (nunique (patient_id <$> df')).
    fold (nunique (patient_id <$> df)). rewrite !nunique_size.
    f_equal. apply list_to_set_perm_L. by rewrite Hperm.
Qed.

Lemma distinct_patient_count_bounds_swap :
  distinct_patient_count [ Row "P2" 51 "M" 11 12 140 240; Row "P1" 40 "F" 13 7 200 180 ]
  = distinct_patient_count [ Row "P1" 40 "F" 13 7 200 180; Row "P2" 51 "M" 11 12 140 240 ].
Proof.
  apply (distinct_patient_count_bounds
           [ Row "P1" 40 "F" 13 7 200 180; Row "P2" 51 "M" 11 12 140 240 ]).
  apply perm_swap.
Defined.

Lemma filter_disjoint_length {A} (P Q : A → Prop)
    `{∀ x, Decision (P x)} `{∀ x, Decision (Q x)} (l : list A) :
  (∀ x, P x → Q x → False) →
  (length (filter P l) + length (filter Q l))%nat
  = length (filter (λ x, P x ∨ Q x) l).
Proof.
  intros Hdisj. induction l as [|x l IH]; [done|].
  rewrite !filter_cons.
  destruct (decide (P x)) as [HP|HP]; destruct (decide (Q x)) as [HQ|HQ];
    destruct (decide (P x ∨ Q x)) as [HPQ|HPQ]; cbn [length];
    try (by destruct (Hdisj x)); try tauto; lia.
Qed.

Lemma lookups_cover (df : list row) (ids : list string) :
  NoDup ids →
  sum_list ((λ id, length (patient_details df id)) <$> ids)
  = length (filter (λ r, patient_id r ∈ ids) df).
Proof.
  unfold patient_details. induction 1 as [|id ids Hid _ IH]; cbn [fmap list_fmap sum_list].
  - induction df as [|r df IHdf]; [done|].
    rewrite filter_cons. destruct (decide _) as [Hin|]; [|done].
    by apply elem_of_nil in Hin.
  - change (list_fmap _ _ ?f ids) with (f <$> ids). rewrite IH.
    unfold Datatypes.id.
    rewrite (filter_disjoint_length (λ r, patient_id r = id)
               (λ r, patient_id r ∈ ids)) by (intros r -> Hin; done).
    f_equal. apply list_filter_iff. intros r. rewrite elem_of_cons. done.
Qed.

Lemma filter_all {A} (P : A → Prop) `{∀ x, Decision (P x)} (l : list A) :
  Forall P l → filter P l = l.
Proof.
  induction 1 as [|x l Hx _ IH]; [done|]. by rewrite filter_cons_True, IH.
Qed.

(** X5: the lookups of the distinct identifiers partition the table.  The
    identifiers counted as unique are pairwise different, they are exactly
    the identifiers whose lookup finds a row, their number is the number of
    unique patients shown, and the sizes of their lookups add up to the
    number of rows. *)
Theorem patient_details_partition (df : list row) :
  NoDup (unique_from ∅ (patient_id <$> df))
  ∧ length (unique_from ∅ (patient_id <$> df)) = distinct_patient_count df
  ∧ (∀ id, id ∈ unique_from ∅ (patient_id <$> df) ↔ patient_details df id ≠ [])
  ∧ sum_list ((λ id, length (patient_details df id))
              <$> unique_from ∅ (patient_id <$> df)) = length df.
Proof.
  set (ids := unique_from ∅ (patient_id <$> df)).
  assert (Hids : ∀ id, id ∈ ids ↔ ∃ r, r ∈ df ∧ patient_id r = id).
  { intros id. unfold ids. rewrite unique_from_elem, list_elem_of_fmap.
    set_solver. }
  split; [apply unique_from_NoDup|]. split; [done|]. split.
  - intros id. rewrite Hids. unfold patient_details. split.
    + intros (r & Hr & Hid) Hnil.
      by apply (filter_nil_not_elem_of _ _ r Hnil).
    + intros Hne. destruct (filter _ df) as [|r l] eqn:E; [done|].
      assert (r ∈ filter (λ r, patient_id r = id) df) as Hin by (rewrite E; left).
      apply list_elem_of_filter in Hin as [Hid Hr]. by exists r.
  - rewrite lookups_cover by apply unique_from_NoDup.
    f_equal. apply filter_all, Forall_forall. intros r Hr.
    apply Hids. by exists r.
Qed.

Lemma patient_details_partition_three_rows :
  sum_list ((λ id, length (patient_details
                             [ Row "P1" 40 "F" 13 7 200 180;
                               Row "P2" 51 "M" 11 12 140 240;
                               Row "P1" 41 "F" 14 6 210 190 ] id))
            <$> ["P1"; "P2"]) = 3%nat.
Proof.
  exact (proj2 (proj2 (proj2 (patient_details_partition
           [ Row "P1" 40 "F" 13 7 200 180; Row "P2" 51 "M" 11 12 140 240;
             Row "P1" 41 "F" 14 6 210 190 ])))).
Defined.

(** ** Statistics of a table with rows *)

Lemma Qsum_bounds (lo hi : Q) (l : list Q) :
  Forall (λ x, lo <= x ∧ x <= hi) l →
  count l * lo <= Qsum l ∧ Qsum l <= count l * hi.
Proof.
  induction 1 as [|x l [Hlo Hhi] _ [IH1 IH2]].
  - change (count []) with 0. change (Qsum []) with 0. lra.
  - rewrite Qsum_cons, count_cons. split; nra.
Qed.

Lemma mean_bounds (lo hi : Q) (l : list Q) :
  l ≠ [] → Forall (λ x, lo <= x ∧ x <= hi) l → lo <= mean l ∧ mean l <= hi.
Proof.
  intros Hne Hall. destruct (Qsum_bounds lo hi l Hall) as [H1 H2].
  assert (0 < count l) as Hn by (destruct l; [done|apply count_pos]).
  unfold mean. split.
  - apply Qle_shift_div_l; [done|]. lra.
  - apply Qle_shift_div_r; [done|]. lra.
Qed.

(** X6: on a table with at least one row the mean age is a number, not NaN,
    and it lies within every interval that contains all the ages; for a
    single row it is the age of that row. *)
Theorem mean_age_within (df : list row) (lo hi : Q) :
  df ≠ [] → (∀ r, r ∈ df → lo <= age r ∧ age r <= hi) →
  ∃ m, mean_age df = Ok (Num m) ∧ lo <= m ∧ m <= hi
       ∧ (∀ r, df = [r] → m == age r).
Proof.
  intros Hne Hall. rewrite mean_age_eq. exists (mean (age <$> df)).
  destruct df as [|r0 df]; [by destruct Hne|]. split; [reflexivity|].
  assert (Forall (λ x, lo <= x ∧ x <= hi) (age <$> r0 :: df)) as Hages.
  { apply Forall_fmap, Forall_forall. intros r Hr. by apply Hall. }
  assert (age <$> r0 :: df ≠ []) as Hne' by (cbn; discriminate).
  destruct (mean_bounds lo hi _ Hne' Hages) as [H1 H2].
  split; [done|]. split; [done|].
  intros r [= -> ->]. unfold mean, count. cbn. field.
Qed.

Lemma mean_age_within_two_rows :
  ∃ m, mean_age [ Row "P1" 40 "F" 13 7 200 180; Row "P2" 50 "M" 11 12 140 240 ]
       = Ok (Num m) ∧ 40 <= m ∧ m <= 50.
Proof.
  destruct (mean_age_within
              [ Row "P1" 40 "F" 13 7 200 180; Row "P2" 50 "M" 11 12 140 240 ] 40 50)
    as (m & Hm & H1 & H2 & _); [done| |by exists m].
  intros r. rewrite !elem_of_cons, elem_of_nil.
  intros [-> | [-> | []]]; by vm_compute.
Defined.

(** ** The median *)

Lemma Qle_bool_false (x y : Q) : Qle_bool x y = false → y <= x.
Proof.
  intros H. apply not_true_iff_false in H. rewrite Qle_bool_iff in H.
  apply Qlt_le_weak. by apply Qnot_le_lt.
Qed.

Lemma insert_sorted_perm (x : Q) (l : list Q) : insert_sorted x l ≡ₚ x :: l.
Proof.
  induction l as [|y l IH]; cbn [insert_sorted]; [done|].
  destruct (Qle_bool x y); [done|]. rewrite IH. apply perm_swap.
Qed.

Lemma sort_values_perm (l : list Q) : sort_values l ≡ₚ l.
Proof.
  unfold sort_values. induction l as [|x l IH]; cbn [foldr]; [done|].
  by rewrite insert_sorted_perm, IH.
Qed.

Lemma insert_sorted_sorted (x : Q) (l : list Q) :
  StronglySorted Qle l → StronglySorted Qle (insert_sorted x l).
Proof.
  induction l as [|y l IH]; cbn [insert_sorted]; intros Hs.
  - by repeat constructor.
  - apply StronglySorted_inv in Hs as [Hs Hy].
    destruct (Qle_bool x y) eqn:E.
    + apply Qle_bool_iff in E. constructor; [by constructor|].
      constructor; [done|]. eapply Forall_impl; [exact Hy|].
      cbn. intros z Hz. by apply Qle_trans with y.
    + apply Qle_bool_false in E. constructor; [by apply IH|].
      rewrite insert_sorted_perm. by constructor.
Qed.

Lemma sort_values_sorted (l : list Q) : StronglySorted Qle (sort_values l).
Proof.
  unfold sort_values. induction l as [|x l IH]; cbn [foldr]; [constructor|].
  by apply insert_sorted_sorted.
Qed.

Lemma sorted_lookup_le (s : list Q) (i j : nat) (x y : Q) :
  StronglySorted Qle s → (i <= j)%nat →
  s !! i = Some x → s !! j = Some y → x <= y.
Proof.
  intros Hs Hij Hx Hy. destruct (decide (i = j)) as [->|Hne].
  - rewrite Hx in Hy. injection Hy as ->. apply Qle_refl.
  - rewrite <- (take_drop j s) in Hs.
    apply (StronglySorted_app_1_elem_of _ _ _ _ _ Hs).
    + apply list_elem_of_lookup. exists i. rewrite lookup_take_lt by lia. done.
    + apply list_elem_of_lookup. exists 0%nat. rewrite lookup_drop.
      by rewrite Nat.add_0_r.
Qed.

Lemma filter_length_prefix {A} (P : A → Prop) `{∀ x, Decision (P x)}
    (s : list A) (k : nat) :
  (k <= length s)%nat →
  (∀ i x, (i < k)%nat → s !! i = Some x → P x) →
  (k <= length (filter P s))%nat.
Proof.
  intros Hk HP. rewrite <- (take_drop k s), filter_app, length_app.
  rewrite filter_all.
  - rewrite length_take. lia.
  - apply Forall_lookup. intros i x Hx.
    destruct (decide (i < k)%nat) as [Hi|Hi].
    + apply (HP i); [done|]. by rewrite lookup_take_lt in Hx.
    + apply lookup_lt_Some in Hx. rewrite length_take in Hx. lia.
Qed.

Lemma filter_length_suffix {A} (P : A → Prop) `{∀ x, Decision (P x)}
    (s : list A) (k : nat) :
  (∀ i x, (k <= i)%nat → s !! i = Some x → P x) →
  (length s - k <= length (filter P s))%nat.
Proof.
  intros HP. rewrite <- (take_drop k s) at 2. rewrite filter_app, length_app.
  rewrite (filter_all P (drop k s)).
  - rewrite length_drop. lia.
  - apply Forall_lookup. intros i x Hx. rewrite lookup_drop in Hx.
    apply (HP (k + i)%nat); [lia|done].
Qed.

Lemma Series_median_halves (l : list Q) :
  l ≠ [] →
  ∃ m, Series_median l = Num m
       ∧ (length l <= 2 * length (filter (λ x, (x <= m)%Q) l))%nat
       ∧ (length l <= 2 * length (filter (λ x, (m <= x)%Q) l))%nat
       ∧ ∀ lo hi, Forall (λ x, lo <= x ∧ x <= hi) l → lo <= m ∧ m <= hi.
Proof.
  intros Hne. pose proof (sort_values_perm l) as Hperm.
  pose proof (sort_values_sorted l) as Hsorted.
  assert (Hlen : length (sort_values l) = length l) by (by rewrite Hperm).
  assert (Hpos : (0 < length l)%nat) by (destruct l; [done|cbn; lia]).
  assert (Hcount : ∀ m, length (filter (λ x, x <= m) l)
                        = length (filter (λ x, x <= m) (sort_values l))
                        ∧ length (filter (λ x, m <= x) l)
                          = length (filter (λ x, m <= x) (sort_values l))).
  { intros m. by rewrite !Hperm. }
  assert (Hin : ∀ i x, sort_values l !! i = Some x → x ∈ l).
  { intros i x Hx. rewrite <- Hperm. by eapply list_elem_of_lookup_2. }
  unfold Series_median. destruct l as [|x0 l0] eqn:El; [done|]. rewrite <- El in *.
  set (s := sort_values l) in *. set (n := length l) in *.
  destruct (lookup_lt_is_Some_2 s (n / 2)) as [b Hb].
  { rewrite Hlen. apply Nat.div_lt; lia. }
  rewrite (nth_lookup_Some _ _ _ _ Hb).
  destruct (Nat.even n) eqn:Heven.
  - apply Nat.even_spec in Heven as [k Hk].
    assert (n / 2 = k)%nat as Hhalf by (rewrite Hk, Nat.mul_comm; apply Nat.div_mul; lia).
    rewrite Hhalf in *.
    destruct (lookup_lt_is_Some_2 s (k - 1)) as [a Ha]; [lia|].
    rewrite (nth_lookup_Some _ _ _ _ Ha).
    pose proof (sorted_lookup_le s (k - 1) k a b Hsorted ltac:(lia) Ha Hb) as Hab.
    exists ((a + b) / 2). split; [done|].
    assert (a <= (a + b) / 2 ∧ (a + b) / 2 <= b) as [Ham Hmb].
    { split; [apply Qle_shift_div_l|apply Qle_shift_div_r]; lra. }
    destruct (Hcount ((a + b) / 2)) as [-> ->]. split; [|split].
    + pose proof (filter_length_prefix (λ x, x <= (a + b) / 2) s k) as H.
      cut (k <= length (filter (λ x, (x <= (a + b) / 2)%Q) s))%nat; [lia|].
      apply H; [lia|]. intros i x Hi Hx.
      pose proof (sorted_lookup_le s i (k - 1) x a Hsorted ltac:(lia) Hx Ha). lra.
    + pose proof (filter_length_suffix (λ x, (a + b) / 2 <= x) s k) as H.
      cut (length s - k <= length (filter (λ x, ((a + b) / 2 <= x)%Q) s))%nat; [lia|].
      apply H. intros i x Hi Hx.
      pose proof (sorted_lookup_le s k i b x Hsorted Hi Hb Hx). lra.
    + intros lo hi Hall. rewrite Forall_forall in Hall.
      destruct (Hall a (Hin _ _ Ha)), (Hall b (Hin _ _ Hb)). lra.
  - exists b. split; [done|]. destruct (Hcount b) as [-> ->].
    split; [|split].
    + pose proof (filter_length_prefix (λ x, x <= b) s (S (n / 2))) as H.
      cut (S (n / 2) <= length (filter (λ x, (x <= b)%Q) s))%nat.
      { pose proof (Nat.div_mod_eq n 2). pose proof (Nat.mod_upper_bound n 2). lia. }
      apply H.
      * apply lookup_lt_Some in Hb. lia.
      * intros i x Hi Hx.
        apply (sorted_lookup_le s i (n / 2) x b Hsorted); [lia|done|done].
    + pose proof (filter_length_suffix (λ x, b <= x) s (n / 2)) as H.
      cut (length s - n / 2 <= length (filter (λ x, (b <= x)%Q) s))%nat.
      { pose proof (Nat.div_mod_eq n 2). pose proof (Nat.mod_upper_bound n 2). lia. }
      apply H. intros i x Hi Hx.
      by apply (sorted_lookup_le s (n / 2) i b x Hsorted).
    + intros lo hi Hall. rewrite Forall_forall in Hall. by apply Hall, (Hin (n / 2)%nat).
Qed.

Lemma filter_fmap_length {A B} (f : A → B) (P : B → Prop)
    `{∀ y, Decision (P y)} (l : list A) :
  length (filter P (f <$> l)) = length (filter (λ x, P (f x)) l).
Proof.
  induction l as [|x l IH]; [done|]. rewrite fmap_cons, !filter_cons.
  destruct (decide (P (f x))); cbn [length]; by rewrite IH.
Qed.

(** X7: on a table with at least one row the median of a numeric column is
    a number, not NaN, that splits the rows in halves: at least half of the
    rows have a value at most the median and at least half a value at least
    the median; and it lies within every interval that contains all the
    values of the column. *)
Theorem median_splits_rows (df : list row) (p : string) (f : row → Q) :
  p ∈ numeric_columns → (∀ r, row_getitem r p = Ok (CNum (f r))) → df ≠ [] →
  ∃ m, median df p = Ok (Num m)
       ∧ (length df <= 2 * length (filter (λ r, (f r <= m)%Q) df))%nat
       ∧ (length df <= 2 * length (filter (λ r, (m <= f r)%Q) df))%nat
       ∧ ∀ lo hi, (∀ r, r ∈ df → lo <= f r ∧ f r <= hi) → lo <= m ∧ m <= hi.
Proof.
  intros Hp Hf Hne. rewrite (median_eq df p f Hp Hf).
  destruct (Series_median_halves (f <$> df)) as (m & Hm & Hle & Hge & Hin).
  { destruct df; [by destruct Hne|done]. }
  exists m. rewrite Hm. rewrite length_fmap, filter_fmap_length in Hle, Hge.
  split; [done|]. split; [done|]. split; [done|].
  intros lo hi Hall. apply Hin, Forall_fmap, Forall_forall. intros r Hr.
  by apply Hall.
Qed.

Lemma median_splits_rows_three_rows :
  ∃ m, median [ Row "P1" 40 "F" 13 7 200 180; Row "P2" 51 "M" 11 12 140 240;
                Row "P3" 35 "F" 14 6 210 190 ] "Hemoglobin (g/dL)" = Ok (Num m)
       ∧ 11 <= m ∧ m <= 14.
Proof.
  destruct (median_splits_rows
              [ Row "P1" 40 "F" 13 7 200 180; Row "P2" 51 "M" 11 12 140 240;
                Row "P3" 35 "F" 14 6 210 190 ] "Hemoglobin (g/dL)" hemoglobin)
    as (m & Hm & _ & _ & Hin); [apply numeric_columns_elem; tauto|done|done|].
  exists m. split; [done|]. apply Hin.
  intros r. rewrite !elem_of_cons, elem_of_nil.
  intros [-> | [-> | [-> | []]]]; by vm_compute.
Defined.

(** ** The standard deviation *)

Lemma Qsquare_nonneg (q : Q) : 0 <= q * q.
Proof.
  destruct (Qlt_le_dec q 0) as [H|H].
  - assert (q * q == (- q) * (- q)) as -> by ring.
    apply Qmult_le_0_compat; lra.
  - by apply Qmult_le_0_compat.
Qed.

Lemma centered_squares_nonneg (m : Q) (l : list Q) :
  0 <= Qsum (zip_with (λ x y, (x - m) * (y - m)) l l).
Proof.
  induction l as [|x l IH]; cbn [zip_with]; [by vm_compute|].
  rewrite Qsum_cons. pose proof (Qsquare_nonneg (x - m)). lra.
Qed.

Lemma centered_squares_zero (m : Q) (l : list Q) :
  Qsum (zip_with (λ x y, (x - m) * (y - m)) l l) == 0 →
  Forall (λ x, x == m) l.
Proof.
  induction l as [|x l IH]; cbn [zip_with]; [constructor|].
  rewrite Qsum_cons. intros Hsum.
  pose proof (centered_squares_nonneg m l) as Hrest.
  pose proof (Qsquare_nonneg (x - m)) as Hsq.
  constructor.
  - assert ((x - m) * (x - m) == 0) as H0 by lra.
    apply Qmult_integral in H0. lra.
  - apply IH. lra.
Qed.

Lemma var_nonneg (l : list Q) : 0 <= var l.
Proof.
  unfold var, cov. pose proof (centered_squares_nonneg (mean l) l) as Hsq.
  destruct (Qlt_le_dec 0 (count l - 1)) as [Hpos|Hneg].
  - apply Qle_shift_div_l; [done|]. lra.
  - destruct l as [|x [|y l]].
    + by vm_compute.
    + unfold Qdiv. change (count [x] - 1) with (1 - 1).
      assert (1 - 1 == 0) as -> by ring. change (/ 0) with 0. lra.
    + pose proof (count_nonneg l). rewrite !count_cons in Hneg. lra.
Qed.

Lemma var_zero_all_equal (l : list Q) :
  (2 <= length l)%nat → var l == 0 → Forall (λ x, x == mean l) l.
Proof.
  intros Hlen Hvar. apply centered_squares_zero.
  unfold var, cov in Hvar.
  assert (0 < count l - 1) as Hpos.
  { destruct l as [|x [|y l]]; cbn in Hlen; try lia.
    pose proof (count_nonneg l). rewrite !count_cons. lra. }
  set (S := Qsum _) in *.
  assert (S == S / (count l - 1) * (count l - 1)) as -> by (field; lra).
  rewrite Hvar. ring.
Qed.

(** X8: the standard deviation of a numeric column is NaN exactly when the
    table has fewer than two rows; from two rows on it is the square root
    of the sample variance, which is never negative, and which is zero
    exactly when all rows have the same value in that column. *)
Theorem stddev_defined (df : list row) (p : string) (f : row → Q) :
  p ∈ numeric_columns → (∀ r, row_getitem r p = Ok (CNum (f r))) →
  (stddev df p = Ok NaN ↔ (length df < 2)%nat)
  ∧ ((2 <= length df)%nat →
     stddev df p = Ok (Sqrt (var (f <$> df)))
     ∧ 0 <= var (f <$> df)
     ∧ (var (f <$> df) == 0 ↔ ∀ r r', r ∈ df → r' ∈ df → f r == f r')).
Proof.
  intros Hp Hf. rewrite (stddev_eq df p f Hp Hf). unfold Series_std.
  rewrite length_fmap. split.
  - destruct (Nat.ltb_spec (length df) 2); split; try done; try lia.
  - intros Hlen. destruct (Nat.ltb_spec (length df) 2); [lia|].
    split; [done|]. split; [apply var_nonneg|]. split.
    + intros Hvar r r' Hr Hr'.
      apply var_zero_all_equal in Hvar; [|by rewrite length_fmap].
      rewrite Forall_fmap, Forall_forall in Hvar.
      pose proof (Hvar r Hr) as H1. pose proof (Hvar r' Hr') as H2.
      cbn in H1, H2. by rewrite H1, H2.
    + intros Hall. destruct df as [|r0 df]; [cbn in Hlen; lia|].
      apply (all_equal_var (f r0)). apply Forall_fmap, Forall_forall.
      intros r Hr. cbn. apply Hall; [done|left].
Qed.

Lemma stddev_defined_single_row :
  stddev [Row "P1" 40 "F" 13 7 200 180] "Platelet Count (10^3/μL)" = Ok NaN.
Proof.
  apply (proj1 (stddev_defined [Row "P1" 40 "F" 13 7 200 180]
                  "Platelet Count (10^3/μL)" platelet_count
                  ltac:(apply numeric_columns_elem; tauto) ltac:(done))).
  cbn. lia.
Defined.

(** ** More on the fitted line *)











(** ** When the scatter plot is drawn *)

Lemma safe_is_const_true (xs : list Q) :
  safe_is_const xs = true ↔
  xs ≠ [] ∧ ∃ c, ¬ c == 0 ∧ Forall (λ x, x == c) xs.
Proof.
  split.
  - destruct xs as [|x0 rest]; [done|]. cbn [safe_is_const].
    intros [Hptp Hnz]%andb_true_iff. split; [done|].
    apply Qeq_bool_iff, ptp_zero_all_equal in Hptp.
    exists x0. split; [|done].
    apply existsb_exists in Hnz as (x & Hx & Hnz).
    apply negb_true_iff, Qeq_bool_neq in Hnz.
    rewrite Forall_forall in Hptp. apply list_elem_of_In in Hx.
    intros H0. apply Hnz. by rewrite (Hptp x Hx).
  - intros (Hne & c & Hc & Hall). by apply (safe_is_const_nonzero c).
Qed.

Lemma trendline_trace_constant (x_variable : string) (xs ys : list Q) :
  x_variable ≠ "const" → length xs = length ys → safe_is_const xs = true →
  trendline_trace x_variable xs ys = Raise (KeyError "const").
Proof.
  intros Hname Hlen Hconst. unfold trendline_trace, add_constant.
  rewrite Hconst. unfold OLS_fit.
  cbn [x_col const_col x_name]. rewrite Hlen, Nat.eqb_refl. cbn [negb].
  destruct xs as [|x0 rest]; [done|]. rewrite <- Hlen. cbn [length Nat.eqb].
  cbn [mbind outcome_bind params_getitem].
  assert (String.eqb x_variable "const" = false) as ->
    by (by apply String.eqb_neq).
  done.
Qed.

Lemma trendline_trace_ok (x_variable : string) (xs ys : list Q) :
  x_variable ≠ "const" →
  (∃ t, trendline_trace x_variable xs ys = Ok t)
  ↔ length xs = length ys ∧ xs ≠ [] ∧ safe_is_const xs = false.
Proof.
  intros Hname. split.
  - intros [t Ht]. destruct (decide (length xs = length ys)) as [Hlen|Hlen].
    + split; [done|]. destruct xs as [|x0 rest].
      { unfold trendline_trace in Ht.
        destruct (OLS_fit ys _); cbn [mbind outcome_bind] in Ht; done. }
      split; [done|]. destruct (safe_is_const (x0 :: rest)) eqn:E; [|done].
      by rewrite (trendline_trace_constant _ _ _ Hname Hlen E) in Ht.
    + unfold trendline_trace in Ht.
      by rewrite (OLS_fit_sizes x_variable xs ys Hlen) in Ht.
  - intros (Hlen & Hne & Hconst).
    pose proof (OLS_fit_with_const x_variable xs ys Hlen Hne Hconst) as Hfit.
    destruct (fit_outcome x_variable xs ys _ _ Hname Hfit) as [_ Htrace].
    destruct xs as [|x0 rest]; [done|]. eexists. by apply Htrace.
Qed.

Lemma trendline_trace_shape (x_variable : string) (xs ys : list Q) (t : trace) :
  trendline_trace x_variable xs ys = Ok t →
  trace_mode t = "lines" ∧ trace_name t = "Trendline"
  ∧ length (trace_x t) = 100%nat ∧ length (trace_y t) = 100%nat.
Proof.
  unfold trendline_trace. destruct (OLS_fit ys _) as [params|]; [|done].
  cbn [mbind outcome_bind]. destruct xs as [|x0 rest]; [done|].
  destruct (params_getitem params "const") as [q|]; [|done].
  cbn [mbind outcome_bind].
  destruct (params_getitem params x_variable) as [q0|]; [|done].
  cbn [mbind outcome_bind].
  intros Heq. assert (t = Trace (linspace (col_min x0 rest) (col_max x0 rest) 100)
                           (map (λ x, q + q0 * x)
                              (linspace (col_min x0 rest) (col_max x0 rest) 100))
                           "lines" "Trendline") as -> by congruence.
  cbn [trace_mode trace_name trace_x trace_y].
  by rewrite length_map, linspace_length.
Qed.

Lemma zip_fmap_rows {A} (f g : A → Q) (l : list A) :
  zip (f <$> l) (g <$> l) = (λ r, (f r, g r)) <$> l.
Proof. induction l as [|x l IH]; [done|]. cbn. by rewrite <- IH. Qed.

Lemma numeric_columns_not_const (p : string) : p ∈ numeric_columns → p ≠ "const".
Proof. rewrite numeric_columns_elem. by intros [-> | [-> | [-> | ->]]]. Qed.

(** X12: for two columns of the dropdown list the scatter-plot callback
    returns a figure exactly when the table has at least one row and the x
    column is not one non-zero number repeated in every row.  The figure
    then has the title "x vs. y", one point per row in row order, and one
    trace, the trendline, in mode "lines" with 100 x and 100 y
    coordinates. *)
Theorem update_scatter_plot_succeeds (df : list row) (x_variable y_variable : string)
    (fx fy : row → Q) :
  x_variable ∈ numeric_columns → y_variable ∈ numeric_columns →
  (∀ r, row_getitem r x_variable = Ok (CNum (fx r))) →
  (∀ r, row_getitem r y_variable = Ok (CNum (fy r))) →
  ((∃ fig, update_scatter_plot df x_variable y_variable = Ok fig)
   ↔ df ≠ [] ∧ ¬ ∃ c, ¬ c == 0 ∧ ∀ r, r ∈ df → fx r == c)
  ∧ ∀ fig, update_scatter_plot df x_variable y_variable = Ok fig →
      fig_title fig = String.append x_variable (String.append " vs. " y_variable)
      ∧ fig_points fig = (λ r, (fx r, fy r)) <$> df
      ∧ ∃ t, fig_traces fig = [t]
             ∧ trace_mode t = "lines" ∧ trace_name t = "Trendline"
             ∧ length (trace_x t) = 100%nat ∧ length (trace_y t) = 100%nat.
Proof.
  intros Hx Hy Hfx Hfy.
  rewrite (update_scatter_plot_numeric df _ _ fx fy Hx Hy Hfx Hfy).
  pose proof (numeric_columns_not_const _ Hx) as Hname.
  pose proof (trendline_trace_ok x_variable (fx <$> df) (fy <$> df) Hname) as Hok.
  split.
  - split.
    + intros [fig Hfig].
      destruct (trendline_trace _ _ _) as [t|] eqn:Ht; [|done].
      destruct (proj1 Hok) as (_ & Hne & Hconst); [by exists t|].
      split; [by destruct df|].
      intros (c & Hc & Hall).
      assert (safe_is_const (fx <$> df) = true) as Htrue; [|congruence].
      apply safe_is_const_true. split; [done|]. exists c. split; [done|].
      apply Forall_fmap, Forall_forall. intros r Hr. by apply Hall.
    + intros [Hne Hnot].
      destruct (proj2 Hok) as [t Ht]; [|rewrite Ht; by eexists].
      split; [by rewrite !length_fmap|]. split; [by destruct df|].
      destruct (safe_is_const (fx <$> df)) eqn:E; [|done].
      apply safe_is_const_true in E as (_ & c & Hc & Hall).
      destruct Hnot. exists c. split; [done|].
      rewrite Forall_fmap, Forall_forall in Hall. intros r Hr. by apply Hall.
  - intros fig. destruct (trendline_trace _ _ _) as [t|] eqn:Ht; [|done].
    cbn [mbind outcome_bind]. intros [= <-]. cbn.
    split; [done|]. split; [apply zip_fmap_rows|].
    exists t. split; [done|]. by eapply trendline_trace_shape.
Qed.

Lemma update_scatter_plot_succeeds_three_rows :
  ∃ fig, update_scatter_plot
           [ Row "P1" 40 "F" 13 7 200 180; Row "P2" 51 "M" 11 12 140 240;
             Row "P3" 35 "F" 14 6 210 190 ]
           "Hemoglobin (g/dL)" "Cholesterol (mg/dL)" = Ok fig.
Proof.
  apply (proj1 (update_scatter_plot_succeeds
                  [ Row "P1" 40 "F" 13 7 200 180; Row "P2" 51 "M" 11 12 140 240;
                    Row "P3" 35 "F" 14 6 210 190 ]
                  "Hemoglobin (g/dL)" "Cholesterol (mg/dL)" hemoglobin cholesterol
                  ltac:(apply numeric_columns_elem; tauto)
                  ltac:(apply numeric_columns_elem; tauto)
                  ltac:(done) ltac:(done))).
  split; [done|]. intros (c & Hc & Hall).
  assert (13 == c) as H1 by (apply (Hall (Row "P1" 40 "F" 13 7 200 180)); left).
  assert (11 == c) as H2
    by (apply (Hall (Row "P2" 51 "M" 11 12 140 240)); right; left).
  rewrite <- H1 in H2. by vm_compute in H2.
Defined.

(** ** The bar chart *)

(** X13: for every column of the dropdown list and every dataset, the empty
    one included, the bar-chart callback returns a chart and never an
    error: its title is "<column> vs. Age", its colours are the palette, and
    it has exactly one bar per row, in row order, at the age of the row and
    of the height of the row's value in that column.  A name that is not a
    column of the table is refused with ValueError. *)
Theorem update_bar_chart_bars (palette : list string) (df : list row)
    (y_variable : string) :
  (∀ f : row → Q, y_variable ∈ numeric_columns →
     (∀ r, row_getitem r y_variable = Ok (CNum (f r))) →
     ∃ chart,
       update_bar_chart palette df y_variable = Ok chart
       ∧ bar_title chart = String.append y_variable " vs. Age"
       ∧ bar_colors chart = palette
       ∧ length (bar_points chart) = length df
       ∧ ∀ i bar, bar_points chart !! i = Some bar ↔
                  ∃ r, df !! i = Some r ∧ bar = (CNum (age r), CNum (f r)))
  ∧ (y_variable ∉ df_columns →
     fails_with (update_bar_chart palette df y_variable) "ValueError").
Proof.
  split.
  - intros f Hy Hf. unfold update_bar_chart.
    rewrite bool_decide_eq_true_2 by (apply df_columns_elem; by right).
    rewrite (df_getitem_numeric df "Age" age)
      by (try (apply df_columns_elem; by left); done).
    rewrite (df_getitem_numeric df y_variable f)
      by (try (apply df_columns_elem; by right); done).
    cbn [mbind outcome_bind]. eexists. split; [reflexivity|]. cbn.
    split; [done|]. split; [done|].
    assert (zip (CNum <$> (age <$> df)) (CNum <$> (f <$> df))
            = (λ r, (CNum (age r), CNum (f r))) <$> df) as ->.
    { clear. induction df as [|r df IH]; [done|]. cbn. by rewrite <- IH. }
    split; [by rewrite length_fmap|].
    intros i bar. rewrite list_lookup_fmap, fmap_Some. naive_solver.
  - intros Hy. unfold update_bar_chart.
    rewrite bool_decide_eq_false_2 by done. by apply fails_with_Raise.
Qed.

Lemma update_bar_chart_bars_empty :
  ∃ chart, update_bar_chart ["#66C5CC"] [] "Hemoglobin (g/dL)" = Ok chart
           ∧ length (bar_points chart) = 0%nat.
Proof.
  destruct (proj1 (update_bar_chart_bars ["#66C5CC"] [] "Hemoglobin (g/dL)")
              hemoglobin) as (chart & Hchart & _ & _ & Hlen & _);
    [apply numeric_columns_elem; tauto|done|].
  by exists chart.
Defined.

(** ** Order of the rows *)






(** ** A row without red paragraphs *)

Lemma row_details_styles (r : row) :
  row_details r
  = Ok [ P [Lit "Patient ID: "; Fmt (CStr (patient_id r))] [];
         P [Lit "Age: "; Fmt (CNum (age r))] [];
         P [Lit "Gender: "; Fmt (CStr (gender r))] [];
         P [Lit "Hemoglobin (g/dL)"; Lit ": "; Fmt (CNum (hemoglobin r))]
           (if Qle_bool 12.0 (hemoglobin r) && Qle_bool (hemoglobin r) 16.5
            then [] else [("color", "red")]);
         P [Lit "White Blood Cell Count (10^3/μL)"; Lit ": ";
            Fmt (CNum (white_blood_cell_count r))]
           (if Qle_bool 4.5 (white_blood_cell_count r)
               && Qle_bool (white_blood_cell_count r) 11.0
            then [] else [("color", "red")]);
         P [Lit "Platelet Count (10^3/μL)"; Lit ": "; Fmt (CNum (platelet_count r))]
           (if Qle_bool 150 (platelet_count r) && Qle_bool (platelet_count r) 450
            then [] else [("color", "red")]);
         P [Lit "Cholesterol (mg/dL)"; Lit ": "; Fmt (CNum (cholesterol r))]
           (if Qle_bool 0 (cholesterol r) && Qle_bool (cholesterol r) 200
            then [] else [("color", "red")]) ].
Proof.
  unfold row_details, numeric_columns. cbn [mapM].
  rewrite (param_line_eq r "Hemoglobin (g/dL)" (PyFloat 12.0) (PyFloat 16.5)
             (hemoglobin r)) by (try (vm_compute; reflexivity); done).
  rewrite (param_line_eq r "White Blood Cell Count (10^3/μL)" (PyFloat 4.5)
             (PyFloat 11.0) (white_blood_cell_count r))
    by (try (vm_compute; reflexivity); done).
  rewrite (param_line_eq r "Platelet Count (10^3/μL)" (PyInt 150) (PyInt 450)
             (platelet_count r)) by (try (vm_compute; reflexivity); done).
  rewrite (param_line_eq r "Cholesterol (mg/dL)" (PyInt 0) (PyInt 200)
             (cholesterol r)) by (try (vm_compute; reflexivity); done).
  reflexivity.
Qed.

Lemma style_plain_iff (lo hi v : Q) :
  (if Qle_bool lo v && Qle_bool v hi then [] else [("color", "red")])
  = ([] : list (string * string)) ↔ lo <= v ∧ v <= hi.
Proof.
  rewrite <- !Qle_bool_iff. destruct (Qle_bool lo v), (Qle_bool v hi); cbn;
    split; try done; by intros [].
Qed.

(** X15: the seven paragraphs of a row contain no red one exactly when all
    four measurements of the row are within their healthy ranges:
    hemoglobin in [12.0, 16.5], white blood cell count in [4.5, 11.0],
    platelet count in [150, 450] and cholesterol in [0, 200]. *)
Theorem row_details_no_red (r : row) :
  ∃ block,
    row_details r = Ok block
    ∧ length block = 7%nat
    ∧ (Forall (λ h, p_style h = []) block
       ↔ (12.0 <= hemoglobin r ∧ hemoglobin r <= 16.5)
         ∧ (4.5 <= white_blood_cell_count r ∧ white_blood_cell_count r <= 11.0)
         ∧ (150 <= platelet_count r ∧ platelet_count r <= 450)
         ∧ (0 <= cholesterol r ∧ cholesterol r <= 200)).
Proof.
  eexists. split; [apply row_details_styles|]. split; [done|].
  rewrite !Forall_cons, Forall_nil. cbn [p_style].
  rewrite !style_plain_iff. tauto.
Qed.
